(** * Product Performance Engine (mon_business, [src/lib/productPerformance.ts])

    A shallow embedding of [calculateProductPerformance] and of its helpers
    [categorizePerformance], [calculateScore], [addRankings] and
    [calculateSummary], with the properties of the engine proved on it.
    The development also covers the display table of the categories
    ([getPerformanceCategoryDisplay]), the storage utilities ([loadData],
    [saveData], [clearData]) and, of [src/types/performance.ts], the state
    logic of the product table ([handleSort], [filteredAndSortedProducts])
    and of the entry form ([handleSubmit]).

    Number models.  The engine is embedded twice.

    - On exact numbers.  A JavaScript [number] is modelled by [num]: an
      exact rational ([Qc], so that equal numbers are equal terms) or one of
      the special values [Infinity], [-Infinity], [NaN].  Finite results are
      exact: the rounding and the overflow of IEEE doubles are not modelled,
      and zero carries no sign.  The special values arise from a division by
      zero only.  The fields of the two input records are finite numbers
      ([Qc]).  This embedding carries the properties of the control flow of
      the engine: which stock items are reported, which entries are read,
      which fields coincide, what the window changes, and the formula of the
      score.

    - On IEEE 754 doubles (module [IEEE]).  A [number] is a primitive
      binary64 [float]: every operation rounds, overflows and yields [NaN]
      the way it does when the code runs, and the inputs are arbitrary
      doubles.  This embedding carries the properties that depend on the
      arithmetic: what the aggregation loop adds up and in which order, the
      sign of the profit in the classifier, the order the rankings sort on,
      and the best products of the summary. *)

From Stdlib Require Import QArith Qcanon Qround Lqa Floats.
From stdpp Require Import gmap strings list fin_maps sorting.

Local Open Scope Qc_scope.

(** ** JavaScript numbers *)

Inductive num : Type :=
| Fin (q : Qc)
| PInf
| NInf
| NaN.

Global Instance num_eq_dec : EqDecision num.
Proof. solve_decision. Defined.

Definition Qcltb (a b : Qc) : bool := bool_decide (a < b).
Definition Qceqb (a b : Qc) : bool := bool_decide (a = b).

Module Num.

Definition zero : num := Fin 0.
Definition of_Z (z : Z) : num := Fin (Qc_of_Z z).
(** A decimal literal [n / d], e.g. [0.15] is [dec 15 100]. *)
Definition dec (n : Z) (d : positive) : num := Fin (Q2Qc (n # d)).

(** [a + b] *)
Definition add (a b : num) : num :=
  match a, b with
  | NaN, _ | _, NaN => NaN
  | PInf, NInf | NInf, PInf => NaN
  | PInf, _ | _, PInf => PInf
  | NInf, _ | _, NInf => NInf
  | Fin x, Fin y => Fin (x + y)
  end.

(** [- a] *)
Definition neg (a : num) : num :=
  match a with
  | Fin x => Fin (- x)
  | PInf => NInf
  | NInf => PInf
  | NaN => NaN
  end.

(** [a - b] *)
Definition sub (a b : num) : num := add a (neg b).

(** The sign of a number: [Some Lt], [Some Eq], [Some Gt], or [None] for
    [NaN]. *)
Definition sign (a : num) : option comparison :=
  match a with
  | Fin x => Some (if Qcltb x 0 then Lt else if Qcltb 0 x then Gt else Eq)
  | PInf => Some Gt
  | NInf => Some Lt
  | NaN => None
  end.

Definition inf_of (c : comparison) : num :=
  match c with Gt => PInf | Lt => NInf | Eq => NaN end.

Definition cmul (c d : comparison) : comparison :=
  match c, d with
  | Eq, _ | _, Eq => Eq
  | Gt, Gt | Lt, Lt => Gt
  | _, _ => Lt
  end.

(** [a * b]: an infinity times zero is [NaN]. *)
Definition mul (a b : num) : num :=
  match a, b with
  | Fin x, Fin y => Fin (x * y)
  | _, _ =>
      match sign a, sign b with
      | Some c, Some d => inf_of (cmul c d)
      | _, _ => NaN
      end
  end.

(** [a / b]: a finite number over zero is an infinity of its sign, and
    [0 / 0] is [NaN]; a finite number over an infinity is [0]. *)
Definition div (a b : num) : num :=
  match a, b with
  | NaN, _ | _, NaN => NaN
  | Fin x, Fin y =>
      if Qceqb y 0 then
        match sign a with Some c => inf_of c | None => NaN end
      else Fin (x / y)
  | Fin _, _ => Fin 0
  | _, Fin y =>
      match sign a with
      | Some c => inf_of (cmul c (if Qcltb y 0 then Lt else Gt))
      | None => NaN
      end
  | _, _ => NaN
  end.

(** [a < b]: false as soon as one side is [NaN]. *)
Definition lt (a b : num) : bool :=
  match a, b with
  | NaN, _ | _, NaN => false
  | Fin x, Fin y => Qcltb x y
  | NInf, NInf | PInf, _ | _, NInf => false
  | _, _ => true
  end.

(** [a > b] *)
Definition gt (a b : num) : bool := lt b a.

(** [a === b] *)
Definition eq (a b : num) : bool :=
  match a, b with
  | Fin x, Fin y => Qceqb x y
  | PInf, PInf | NInf, NInf => true
  | _, _ => false
  end.

(** [Math.min(a, b)] *)
Definition min (a b : num) : num :=
  match a, b with
  | NaN, _ | _, NaN => NaN
  | _, _ => if lt b a then b else a
  end.

(** [Math.round(a)]: the nearest integer, a half rounding up. *)
Definition round (a : num) : num :=
  match a with
  | Fin x => of_Z (Qfloor (x + Q2Qc (1 # 2)))
  | _ => a
  end.

(** Truthiness of a number: [0] and [NaN] are falsy. *)
Definition truthy (a : num) : bool :=
  match a with
  | Fin x => negb (Qceqb x 0)
  | NaN => false
  | _ => true
  end.

Definition is_fin (a : num) : Prop :=
  match a with Fin _ => True | _ => False end.

End Num.

(** ** Data model *)

(** A ledger entry ([DailyEntry]): [productId] and [quantity] are optional. *)
Module DailyEntry.
Record t : Type := mk {
  productId : option string;
  type : string;
  amount : Qc;
  quantity : option Qc;
}.
End DailyEntry.

(** A stock item ([StockItem]). *)
Module StockItem.
Record t : Type := mk {
  id : string;
  name : string;
  quantity : Qc;
  totalSold : Qc;
}.
End StockItem.

(** The value type of the map [dataByProduct]. *)
Module ProductData.
Record t : Type := mk {
  revenue : num;
  quantity : num;
  totalCost : num;
}.
Definition zero : t :=
  {| revenue := Num.zero; quantity := Num.zero; totalCost := Num.zero |}.
End ProductData.

(** The output record ([src/types/performance.ts]).  The three ranks are
    array indices plus one, hence natural numbers. *)
Module ProductPerformance.
Record t : Type := mk {
  productId : string;
  productName : string;
  totalRevenue : num;
  unitsSold : num;
  realizedProfit : num;
  profitMargin : num;
  projectedRevenue : num;
  projectedProfit : num;
  projectedMargin : num;
  currentStock : num;
  initialStock : num;
  realizationRate : num;
  unrealizedValue : num;
  stockEfficiency : num;
  daysOfStockLeft : num;
  performanceScore : num;
  performanceCategory : string;
  rankByRevenue : nat;
  rankByProfit : nat;
  rankByEfficiency : nat;
  stockTurnover : num;
  estimatedProfit : num;
  revenuePerUnit : num;
}.

Definition set_rankByRevenue (r : nat) (p : t) : t :=
  mk (productId p) (productName p) (totalRevenue p) (unitsSold p)
     (realizedProfit p) (profitMargin p) (projectedRevenue p)
     (projectedProfit p) (projectedMargin p) (currentStock p)
     (initialStock p) (realizationRate p) (unrealizedValue p)
     (stockEfficiency p) (daysOfStockLeft p) (performanceScore p)
     (performanceCategory p) r (rankByProfit p) (rankByEfficiency p)
     (stockTurnover p) (estimatedProfit p) (revenuePerUnit p).

Definition set_rankByProfit (r : nat) (p : t) : t :=
  mk (productId p) (productName p) (totalRevenue p) (unitsSold p)
     (realizedProfit p) (profitMargin p) (projectedRevenue p)
     (projectedProfit p) (projectedMargin p) (currentStock p)
     (initialStock p) (realizationRate p) (unrealizedValue p)
     (stockEfficiency p) (daysOfStockLeft p) (performanceScore p)
     (performanceCategory p) (rankByRevenue p) r (rankByEfficiency p)
     (stockTurnover p) (estimatedProfit p) (revenuePerUnit p).

Definition set_rankByEfficiency (r : nat) (p : t) : t :=
  mk (productId p) (productName p) (totalRevenue p) (unitsSold p)
     (realizedProfit p) (profitMargin p) (projectedRevenue p)
     (projectedProfit p) (projectedMargin p) (currentStock p)
     (initialStock p) (realizationRate p) (unrealizedValue p)
     (stockEfficiency p) (daysOfStockLeft p) (performanceScore p)
     (performanceCategory p) (rankByRevenue p) (rankByProfit p) r
     (stockTurnover p) (estimatedProfit p) (revenuePerUnit p).


Global Instance inhabited : Inhabited t :=
  populate (mk "" "" NaN NaN NaN NaN NaN NaN NaN NaN NaN NaN NaN NaN NaN
               NaN "" 0 0 0 NaN NaN NaN).
End ProductPerformance.

(** The summary returned next to the product list; a [best] pointer is
    [None] where the source has [null]. *)
Module Summary.
Record t : Type := mk {
  totalRevenue : num;
  totalProfit : num;
  averageMargin : num;
  bestByRevenue : option ProductPerformance.t;
  bestByProfit : option ProductPerformance.t;
  bestByScore : option ProductPerformance.t;
  totalProductsAnalyzed : nat;
}.
End Summary.

Module Report.
Record t : Type := mk {
  products : list ProductPerformance.t;
  summary : Summary.t;
}.
End Report.

(** ** [categorizePerformance] *)

Definition categorizePerformance
    (realizedProfit projectedProfit realizationRate currentStock : num)
    : string :=
  if Num.eq realizationRate Num.zero then "NOT_STARTED"
  else if Num.eq currentStock Num.zero then
    if Num.gt realizedProfit Num.zero then "COMPLETED_PROFITABLE"
    else if Num.eq realizedProfit Num.zero then "COMPLETED_BREAKEVEN"
    else "COMPLETED_LOSS"
  else if Num.lt realizationRate (Num.of_Z 100) then
    if Num.gt realizedProfit Num.zero && Num.gt projectedProfit Num.zero
    then "IN_PROGRESS_STRONG"
    else if Num.lt realizedProfit Num.zero && Num.gt projectedProfit Num.zero
    then "IN_PROGRESS_RECOVERING"
    else if Num.lt realizedProfit Num.zero && Num.lt projectedProfit Num.zero
    then "IN_PROGRESS_TROUBLED"
    else if Num.gt realizedProfit Num.zero && Num.lt projectedProfit Num.zero
    then "IN_PROGRESS_DECLINING"
    else "IN_PROGRESS_NEUTRAL"
  else "UNKNOWN".

(** ** [calculateScore] *)

Module weights.
Definition revenue : num := Num.dec 2 10.
Definition profit : num := Num.dec 3 10.
Definition efficiency : num := Num.dec 2 10.
Definition turnover : num := Num.dec 15 100.
Definition margin : num := Num.dec 15 100.
Definition realization : num := Num.dec 1 10.
End weights.

Definition calculateScore
    (revenue profit efficiency turnover margin realizationRate : num) : num :=
  let revenueScore :=
    Num.min (Num.mul (Num.div revenue (Num.of_Z 100000)) (Num.of_Z 100))
            (Num.of_Z 100) in
  let profitScore :=
    Num.min (Num.mul (Num.div profit (Num.of_Z 50000)) (Num.of_Z 100))
            (Num.of_Z 100) in
  let efficiencyScore := Num.min efficiency (Num.of_Z 100) in
  let turnoverScore :=
    Num.min (Num.mul turnover (Num.of_Z 50)) (Num.of_Z 100) in
  let marginScore := Num.min margin (Num.of_Z 100) in
  let realizationScore := Num.min realizationRate (Num.of_Z 100) in
  Num.round
    (Num.add (Num.add (Num.add (Num.add (Num.add
       (Num.mul revenueScore weights.revenue)
       (Num.mul profitScore weights.profit))
       (Num.mul efficiencyScore weights.efficiency))
       (Num.mul turnoverScore weights.turnover))
       (Num.mul marginScore weights.margin))
       (Num.mul realizationScore weights.realization)).

(** ** The aggregation loop of [calculateProductPerformance] *)

(** Truthiness of [entry.productId]: [undefined] and the empty string are
    falsy. *)
Definition truthy_id (productId : option string) : option string :=
  match productId with
  | Some pid => if String.eqb pid "" then None else Some pid
  | None => None
  end.

(** [entry.quantity || 0] *)
Definition quantity_or_0 (quantity : option Qc) : num :=
  match quantity with
  | Some q => if Num.truthy (Fin q) then Fin q else Num.zero
  | None => Num.zero
  end.

(** The body of [entries.forEach((entry) => ...)]. *)
Definition addEntry (dataByProduct : gmap string ProductData.t)
    (entry : DailyEntry.t) : gmap string ProductData.t :=
  match truthy_id (DailyEntry.productId entry) with
  | Some pid =>
      let current := default ProductData.zero (dataByProduct !! pid) in
      if String.eqb (DailyEntry.type entry) "SALE" then
        <[pid := {| ProductData.revenue :=
                      Num.add (ProductData.revenue current)
                              (Fin (DailyEntry.amount entry));
                    ProductData.quantity :=
                      Num.add (ProductData.quantity current)
                              (quantity_or_0 (DailyEntry.quantity entry));
                    ProductData.totalCost := ProductData.totalCost current |}]>
          dataByProduct
      else if String.eqb (DailyEntry.type entry) "EXPENSE"
              || String.eqb (DailyEntry.type entry) "STOCK_IN" then
        <[pid := {| ProductData.revenue := ProductData.revenue current;
                    ProductData.quantity := ProductData.quantity current;
                    ProductData.totalCost :=
                      Num.add (ProductData.totalCost current)
                              (Fin (DailyEntry.amount entry)) |}]>
          dataByProduct
      else dataByProduct
  | None => dataByProduct
  end.

Definition aggregate (entries : list DailyEntry.t)
    : gmap string ProductData.t :=
  foldl addEntry ∅ entries.

(** ** The metrics of one stock item *)

(** The body of [stockItems.map((item) => ...)]. *)
Definition performanceOf (dataByProduct : gmap string ProductData.t)
    (daysToAnalyze : num) (item : StockItem.t) : ProductPerformance.t :=
  let data := default ProductData.zero (dataByProduct !! StockItem.id item) in
  let item_quantity := Fin (StockItem.quantity item) in
  let initialStock := Num.add (Fin (StockItem.totalSold item)) item_quantity in
  let actualCost := ProductData.totalCost data in
  let actualProfit := Num.sub (ProductData.revenue data) actualCost in
  let avgPrice :=
    if Num.gt (ProductData.quantity data) Num.zero
    then Num.div (ProductData.revenue data) (ProductData.quantity data)
    else Num.zero in
  let avgStock := Num.div (Num.add initialStock item_quantity) (Num.of_Z 2) in
  let stockTurnover :=
    if Num.gt avgStock Num.zero
    then Num.div (ProductData.quantity data) avgStock
    else Num.zero in
  let dailySalesRate := Num.div (ProductData.quantity data) daysToAnalyze in
  let daysOfStockLeft :=
    if Num.gt dailySalesRate Num.zero
    then Num.div item_quantity dailySalesRate
    else PInf in
  let stockEfficiency :=
    if Num.gt initialStock Num.zero
    then Num.mul (Num.div (ProductData.quantity data) initialStock)
                 (Num.of_Z 100)
    else Num.zero in
  let profitMargin :=
    if Num.gt (ProductData.revenue data) Num.zero
    then Num.mul (Num.div actualProfit (ProductData.revenue data))
                 (Num.of_Z 100)
    else Num.zero in
  let projectedRevenue :=
    Num.add (ProductData.revenue data) (Num.mul item_quantity avgPrice) in
  let projectedProfit := Num.sub projectedRevenue actualCost in
  let realizationRate :=
    if Num.gt initialStock Num.zero
    then Num.mul (Num.div (ProductData.quantity data) initialStock)
                 (Num.of_Z 100)
    else Num.zero in
  let unrealizedValue := Num.mul item_quantity avgPrice in
  let performanceScore :=
    calculateScore (ProductData.revenue data) actualProfit stockEfficiency
                   stockTurnover profitMargin realizationRate in
  let projectedMargin :=
    if Num.gt projectedRevenue Num.zero
    then Num.mul (Num.div projectedProfit projectedRevenue) (Num.of_Z 100)
    else Num.zero in
  let performanceCategory :=
    categorizePerformance actualProfit projectedProfit realizationRate
                          item_quantity in
  {| ProductPerformance.productId := StockItem.id item;
     ProductPerformance.productName := StockItem.name item;
     ProductPerformance.totalRevenue := ProductData.revenue data;
     ProductPerformance.unitsSold := ProductData.quantity data;
     ProductPerformance.realizedProfit := actualProfit;
     ProductPerformance.profitMargin := profitMargin;
     ProductPerformance.projectedRevenue :=
       Num.add (ProductData.revenue data) (Num.mul item_quantity avgPrice);
     ProductPerformance.projectedProfit :=
       Num.sub (Num.add (ProductData.revenue data)
                        (Num.mul item_quantity avgPrice)) actualCost;
     ProductPerformance.projectedMargin := projectedMargin;
     ProductPerformance.currentStock := item_quantity;
     ProductPerformance.initialStock := initialStock;
     ProductPerformance.realizationRate := realizationRate;
     ProductPerformance.unrealizedValue := unrealizedValue;
     ProductPerformance.stockEfficiency := stockEfficiency;
     ProductPerformance.daysOfStockLeft := daysOfStockLeft;
     ProductPerformance.performanceScore := performanceScore;
     ProductPerformance.performanceCategory := performanceCategory;
     ProductPerformance.rankByRevenue := 0;
     ProductPerformance.rankByProfit := 0;
     ProductPerformance.rankByEfficiency := 0;
     ProductPerformance.stockTurnover := stockTurnover;
     ProductPerformance.estimatedProfit := actualProfit;
     ProductPerformance.revenuePerUnit := avgPrice |}.

(** ** Objects and arrays

    [addRankings] writes the ranks into the records it is given, through
    sorted copies of the array that share the records.  The records therefore
    live in a store, a list indexed by address, and an array of records is a
    list of addresses. *)

Abbreviation heap := (list ProductPerformance.t) (only parsing).

(** [Array.prototype.sort] with a comparator is a stable sort; for a
    consistent comparator its result does not depend on the algorithm the
    engine runs.  It is modelled by a stable insertion sort: an element
    moves behind its right neighbour only where the comparator is positive. *)
Fixpoint sortInsert {A : Type} (cmp : A → A → num) (x : A) (l : list A)
    : list A :=
  match l with
  | [] => [x]
  | y :: l' =>
      if Num.gt (cmp x y) Num.zero then y :: sortInsert cmp x l' else x :: l
  end.

Definition sort {A : Type} (cmp : A → A → num) (l : list A) : list A :=
  foldr (sortInsert cmp) [] l.

(** [arr.forEach((x, i) => ...)], the callback acting on a state. *)
Fixpoint forEach_from {A St : Type} (f : A → nat → St → St) (i : nat)
    (arr : list A) (s : St) : St :=
  match arr with
  | [] => s
  | x :: arr' => forEach_from f (S i) arr' (f x i s)
  end.

Definition forEach {A St : Type} (f : A → nat → St → St) (arr : list A)
    (s : St) : St :=
  forEach_from f 0 arr s.

(** [arr.reduce(f)] without an initial value, on a non-empty array. *)
Definition reduce1 {A : Type} (f : A → A → A) (arr : list A) : option A :=
  match arr with
  | [] => None
  | x :: arr' => Some (foldl f x arr')
  end.

(** ** [addRankings] *)

Definition addRankings (products : list nat) (h : heap) : heap :=
  let byRevenue :=
    sort (λ a b, Num.sub (ProductPerformance.totalRevenue (h !!! b))
                         (ProductPerformance.totalRevenue (h !!! a)))
         products in
  let h1 :=
    forEach (λ p i, alter (ProductPerformance.set_rankByRevenue (i + 1)) p)
            byRevenue h in
  let byProfit :=
    sort (λ a b, Num.sub (ProductPerformance.estimatedProfit (h1 !!! b))
                         (ProductPerformance.estimatedProfit (h1 !!! a)))
         products in
  let h2 :=
    forEach (λ p i, alter (ProductPerformance.set_rankByProfit (i + 1)) p)
            byProfit h1 in
  let byEfficiency :=
    sort (λ a b, Num.sub (ProductPerformance.stockEfficiency (h2 !!! b))
                         (ProductPerformance.stockEfficiency (h2 !!! a)))
         products in
  forEach (λ p i, alter (ProductPerformance.set_rankByEfficiency (i + 1)) p)
          byEfficiency h2.

(** ** [calculateSummary] *)

Definition calculateSummary (products : list nat) (h : heap) : Summary.t :=
  let totalRevenue :=
    foldl (λ sum p, Num.add sum (ProductPerformance.totalRevenue (h !!! p)))
          Num.zero products in
  let totalProfit :=
    foldl (λ sum p, Num.add sum (ProductPerformance.estimatedProfit (h !!! p)))
          Num.zero products in
  let avgMargin :=
    if Num.gt totalRevenue Num.zero
    then Num.mul (Num.div totalProfit totalRevenue) (Num.of_Z 100)
    else Num.zero in
  let bestByRevenue :=
    reduce1 (λ best p,
               if Num.gt (ProductPerformance.totalRevenue (h !!! p))
                         (ProductPerformance.totalRevenue (h !!! best))
               then p else best) products in
  let bestByProfit :=
    reduce1 (λ best p,
               if Num.gt (ProductPerformance.estimatedProfit (h !!! p))
                         (ProductPerformance.estimatedProfit (h !!! best))
               then p else best) products in
  let bestByScore :=
    reduce1 (λ best p,
               if Num.gt (ProductPerformance.performanceScore (h !!! p))
                         (ProductPerformance.performanceScore (h !!! best))
               then p else best) products in
  {| Summary.totalRevenue := totalRevenue;
     Summary.totalProfit := totalProfit;
     Summary.averageMargin := avgMargin;
     Summary.bestByRevenue := (h !!!.) <$> bestByRevenue;
     Summary.bestByProfit := (h !!!.) <$> bestByProfit;
     Summary.bestByScore := (h !!!.) <$> bestByScore;
     Summary.totalProductsAnalyzed := length products |}.

(** ** [calculateProductPerformance] *)

(** The objects that [stockItems.map] allocates, at addresses [0 .. n-1]. *)
Definition allocated (dataByProduct : gmap string ProductData.t)
    (daysToAnalyze : num) (stockItems : list StockItem.t) : heap :=
  map (performanceOf dataByProduct daysToAnalyze) stockItems.

(** The addresses that [products.filter((p) => p.unitsSold > 0)] keeps. *)
Definition active (h : heap) : list nat :=
  List.filter
    (λ p, Num.gt (ProductPerformance.unitsSold (h !!! p)) Num.zero)
    (seq 0 (length h)).

(** [daysToAnalyze = 30]: the default of the optional argument. *)
Definition daysOrDefault (daysToAnalyze : option Qc) : num :=
  match daysToAnalyze with
  | Some d => Fin d
  | None => Num.of_Z 30
  end.

Definition calculateProductPerformance (entries : list DailyEntry.t)
    (stockItems : list StockItem.t) (daysToAnalyze : option Qc) : Report.t :=
  let daysToAnalyze := daysOrDefault daysToAnalyze in
  let dataByProduct := aggregate entries in
  let products := allocated dataByProduct daysToAnalyze stockItems in
  let activeProducts := active products in
  let withRankings := addRankings activeProducts products in
  {| Report.products := (withRankings !!!.) <$> activeProducts;
     Report.summary := calculateSummary activeProducts withRankings |}.

(** Sample inputs. *)
Definition sale (pid : string) (amount quantity : Z) : DailyEntry.t :=
  DailyEntry.mk (Some pid) "SALE" (Qc_of_Z amount) (Some (Qc_of_Z quantity)).
Definition stock (id : string) (quantity totalSold : Z) : StockItem.t :=
  StockItem.mk id id (Qc_of_Z quantity) (Qc_of_Z totalSold).

(** ** Notions used in the statements *)

(** The aggregate the engine reads for a product id:
    [dataByProduct.get(id) || { revenue: 0, quantity: 0, totalCost: 0 }]. *)
Definition dataOf (dataByProduct : gmap string ProductData.t) (pid : string)
    : ProductData.t :=
  default ProductData.zero (dataByProduct !! pid).

(** What one entry does to the map at one key. *)
Definition stepAt (pid : string) (o : option ProductData.t)
    (e : DailyEntry.t) : option ProductData.t :=
  if bool_decide (truthy_id (DailyEntry.productId e) = Some pid) then
    let current := default ProductData.zero o in
    if String.eqb (DailyEntry.type e) "SALE" then
      Some {| ProductData.revenue :=
                Num.add (ProductData.revenue current)
                        (Fin (DailyEntry.amount e));
              ProductData.quantity :=
                Num.add (ProductData.quantity current)
                        (quantity_or_0 (DailyEntry.quantity e));
              ProductData.totalCost := ProductData.totalCost current |}
    else if String.eqb (DailyEntry.type e) "EXPENSE"
            || String.eqb (DailyEntry.type e) "STOCK_IN" then
      Some {| ProductData.revenue := ProductData.revenue current;
              ProductData.quantity := ProductData.quantity current;
              ProductData.totalCost :=
                Num.add (ProductData.totalCost current)
                        (Fin (DailyEntry.amount e)) |}
    else o
  else o.

(** The entries whose product id is the id of a stock item. *)
Definition hasStockItem (stockItems : list StockItem.t) (e : DailyEntry.t)
    : bool :=
  existsb
    (λ item, bool_decide (DailyEntry.productId e = Some (StockItem.id item)))
    stockItems.

(** One of the three blocks of [addRankings]: sort a copy of the array on a
    key, descending, and write each record's position plus one into it. *)
Definition rankPass (key : ProductPerformance.t → num)
    (set_rank : nat → ProductPerformance.t → ProductPerformance.t)
    (products : list nat) (h : heap) : heap :=
  forEach (λ p i, alter (set_rank (i + 1)%nat) p)
          (sort (λ a b, Num.sub (key (h !!! b)) (key (h !!! a))) products) h.

(** ** Notions used in the further properties *)

(** The three categories of a product that is sold out, and the five of a
    product that still has stock. *)
Definition completedCategories : list string :=
  ["COMPLETED_PROFITABLE"; "COMPLETED_BREAKEVEN"; "COMPLETED_LOSS"].

Definition inProgressCategories : list string :=
  ["IN_PROGRESS_STRONG"; "IN_PROGRESS_RECOVERING"; "IN_PROGRESS_TROUBLED";
   "IN_PROGRESS_DECLINING"; "IN_PROGRESS_NEUTRAL"].

(** An entry that the aggregation loop books on a product id: it carries
    this id, which is not empty, and is a SALE, an EXPENSE or a STOCK_IN. *)
Definition bookedOn (pid : string) (e : DailyEntry.t) : bool :=
  bool_decide (truthy_id (DailyEntry.productId e) = Some pid)
  && (String.eqb (DailyEntry.type e) "SALE"
      || String.eqb (DailyEntry.type e) "EXPENSE"
      || String.eqb (DailyEntry.type e) "STOCK_IN").

(** A record with its stock runway blanked out, to compare records up to
    this one field. *)
Definition withoutRunway (p : ProductPerformance.t) : ProductPerformance.t :=
  {| ProductPerformance.productId := ProductPerformance.productId p;
     ProductPerformance.productName := ProductPerformance.productName p;
     ProductPerformance.totalRevenue := ProductPerformance.totalRevenue p;
     ProductPerformance.unitsSold := ProductPerformance.unitsSold p;
     ProductPerformance.realizedProfit := ProductPerformance.realizedProfit p;
     ProductPerformance.profitMargin := ProductPerformance.profitMargin p;
     ProductPerformance.projectedRevenue :=
       ProductPerformance.projectedRevenue p;
     ProductPerformance.projectedProfit :=
       ProductPerformance.projectedProfit p;
     ProductPerformance.projectedMargin :=
       ProductPerformance.projectedMargin p;
     ProductPerformance.currentStock := ProductPerformance.currentStock p;
     ProductPerformance.initialStock := ProductPerformance.initialStock p;
     ProductPerformance.realizationRate :=
       ProductPerformance.realizationRate p;
     ProductPerformance.unrealizedValue :=
       ProductPerformance.unrealizedValue p;
     ProductPerformance.stockEfficiency :=
       ProductPerformance.stockEfficiency p;
     ProductPerformance.daysOfStockLeft := Num.zero;
     ProductPerformance.performanceScore :=
       ProductPerformance.performanceScore p;
     ProductPerformance.performanceCategory :=
       ProductPerformance.performanceCategory p;
     ProductPerformance.rankByRevenue := ProductPerformance.rankByRevenue p;
     ProductPerformance.rankByProfit := ProductPerformance.rankByProfit p;
     ProductPerformance.rankByEfficiency :=
       ProductPerformance.rankByEfficiency p;
     ProductPerformance.stockTurnover := ProductPerformance.stockTurnover p;
     ProductPerformance.estimatedProfit :=
       ProductPerformance.estimatedProfit p;
     ProductPerformance.revenuePerUnit :=
       ProductPerformance.revenuePerUnit p |}.

(** The same for a whole report. *)
Definition reportWithoutRunway (r : Report.t) : Report.t :=
  {| Report.products := withoutRunway <$> Report.products r;
     Report.summary :=
       {| Summary.totalRevenue := Summary.totalRevenue (Report.summary r);
          Summary.totalProfit := Summary.totalProfit (Report.summary r);
          Summary.averageMargin := Summary.averageMargin (Report.summary r);
          Summary.bestByRevenue :=
            withoutRunway <$> Summary.bestByRevenue (Report.summary r);
          Summary.bestByProfit :=
            withoutRunway <$> Summary.bestByProfit (Report.summary r);
          Summary.bestByScore :=
            withoutRunway <$> Summary.bestByScore (Report.summary r);
          Summary.totalProductsAnalyzed :=
            Summary.totalProductsAnalyzed (Report.summary r) |} |}.

(** The report as a function of the store that [stockItems.map] fills. *)
Definition reportOf (h : heap) : Report.t :=
  let activeProducts := active h in
  let withRankings := addRankings activeProducts h in
  {| Report.products := (withRankings !!!.) <$> activeProducts;
     Report.summary := calculateSummary activeProducts withRankings |}.

(** ** [getPerformanceCategoryDisplay]

    Strings hold the UTF-8 bytes of the source text. *)

Module Display.
Record t : Type := mk {
  label : string;
  color : string;
  icon : string;
}.
End Display.

(** The object literal [categories], as the list of its own properties. *)
Definition categories : list (string * Display.t) :=
  [
    ("NOT_STARTED",
     {| Display.label := "Pas encore vendu";
        Display.color := "bg-gray-100 text-gray-700";
        Display.icon := "⏸️" |});
    ("COMPLETED_PROFITABLE",
     {| Display.label := "Terminé (Profit)";
        Display.color := "bg-green-100 text-green-700";
        Display.icon := "✅" |});
    ("COMPLETED_BREAKEVEN",
     {| Display.label := "Terminé (Équilibre)";
        Display.color := "bg-blue-100 text-blue-700";
        Display.icon := "➖" |});
    ("COMPLETED_LOSS",
     {| Display.label := "Terminé (Perte)";
        Display.color := "bg-red-100 text-red-700";
        Display.icon := "❌" |});
    ("IN_PROGRESS_STRONG",
     {| Display.label := "En cours (Fort)";
        Display.color := "bg-green-100 text-green-700";
        Display.icon := "📈" |});
    ("IN_PROGRESS_RECOVERING",
     {| Display.label := "En cours (Récupération)";
        Display.color := "bg-yellow-100 text-yellow-700";
        Display.icon := "🔄" |});
    ("IN_PROGRESS_TROUBLED",
     {| Display.label := "En cours (Difficile)";
        Display.color := "bg-red-100 text-red-700";
        Display.icon := "⚠️" |});
    ("IN_PROGRESS_DECLINING",
     {| Display.label := "En cours (Déclin)";
        Display.color := "bg-orange-100 text-orange-700";
        Display.icon := "📉" |});
    ("IN_PROGRESS_NEUTRAL",
     {| Display.label := "En cours (Neutre)";
        Display.color := "bg-gray-100 text-gray-700";
        Display.icon := "➖" |});
    ("UNKNOWN",
     {| Display.label := "Inconnu";
        Display.color := "bg-gray-100 text-gray-700";
        Display.icon := "❓" |})
  ].

(** The names a plain object inherits from [Object.prototype]; each of them
    reads as a function or an object, hence as a truthy value. *)
Definition objectPrototypeKeys : list string :=
  ["constructor"; "hasOwnProperty"; "isPrototypeOf"; "propertyIsEnumerable";
   "toLocaleString"; "toString"; "valueOf"; "__proto__";
   "__defineGetter__"; "__defineSetter__"; "__lookupGetter__";
   "__lookupSetter__"].

(** The own property of a name in an object literal. *)
Fixpoint ownProperty {A : Type} (name : string) (obj : list (string * A))
    : option A :=
  match obj with
  | [] => None
  | (k, v) :: obj' => if String.eqb k name then Some v else ownProperty name obj'
  end.

(** What [categories[category] || categories.UNKNOWN] evaluates to: a display
    entry, or the member of [Object.prototype] that the name inherits. *)
Inductive displayResult : Type :=
| Entry (d : Display.t)
| Inherited (name : string).

Definition getPerformanceCategoryDisplay (category : string) : displayResult :=
  match ownProperty category categories with
  | Some d => Entry d
  | None =>
      if bool_decide (category ∈ objectPrototypeKeys) then Inherited category
      else
        match ownProperty "UNKNOWN" categories with
        | Some d => Entry d
        | None => Inherited "undefined"
        end
  end.

(** The ten categories [categorizePerformance] can return. *)
Definition lifecycleCategories : list string :=
  ["NOT_STARTED"] ++ completedCategories ++ inProgressCategories
  ++ ["UNKNOWN"].

(** ** Storage ([getDefaultData], [loadData], [saveData], [clearData])

    What [JSON.parse] returns and what the validators inspect is a
    JavaScript value.  An object is the list of its own properties, read by
    name; the validators read the names [settings], [entries], [stock],
    [name] and [dailyTarget] only, none of which a plain object or an array
    inherits. *)

#[warnings="-register-all"]
Inductive value : Type :=
| VUndefined
| VNull
| VBool (b : bool)
| VNum (n : num)
| VStr (s : string)
| VArr (items : list value)
| VObj (props : list (string * value)).

(** [typeof v === "object"]: [null], arrays and objects. *)
Definition typeofObject (v : value) : bool :=
  match v with
  | VNull | VArr _ | VObj _ => true
  | _ => false
  end.

Definition isNull (v : value) : bool :=
  match v with VNull => true | _ => false end.

Definition isUndefined (v : value) : bool :=
  match v with VUndefined => true | _ => false end.

(** [typeof v === "string"] *)
Definition typeofString (v : value) : bool :=
  match v with VStr _ => true | _ => false end.

(** Truthiness of a value. *)
Definition truthyValue (v : value) : bool :=
  match v with
  | VUndefined | VNull => false
  | VBool b => b
  | VNum n => Num.truthy n
  | VStr s => negb (String.eqb s "")
  | VArr _ | VObj _ => true
  end.

(** [v.name] on a value that is not [null] or [undefined]. *)
Definition getProp (v : value) (name : string) : value :=
  match v with
  | VObj props => default VUndefined (ownProperty name props)
  | _ => VUndefined
  end.

(** [typeof v === "number" && v >= 0] *)
Definition isNonNegativeNumber (v : value) : bool :=
  match v with
  | VNum n => Num.lt Num.zero n || Num.eq n Num.zero
  | _ => false
  end.

(** [Array.isArray(v) && v.every(f)] *)
Definition isArray (v : value) : bool :=
  match v with VArr _ => true | _ => false end.

Definition every (f : value → bool) (v : value) : bool :=
  match v with
  | VArr items => forallb f items
  | _ => false
  end.

Definition isValidBusinessSettings (settings : value) : bool :=
  if negb (typeofObject settings) || isNull settings then false
  else
    typeofString (getProp settings "name")
    && (isUndefined (getProp settings "dailyTarget")
        || isNonNegativeNumber (getProp settings "dailyTarget")).

Definition STORAGE_KEY : string := "mon_business_data".

Definition getDefaultData : value :=
  VObj [("settings", VObj [("name", VStr ""); ("dailyTarget", VUndefined)]);
        ("entries", VArr []);
        ("stock", VArr [])].

(** The browser as the storage functions see it: whether [window] is
    defined, and the content of [localStorage]. *)
Module World.
Record t : Type := mk {
  window : bool;
  localStorage : gmap string string;
}.
End World.

Section storage.
(** The two type guards imported from [@/types], which is not part of the
    sources at hand, and the platform: [JSON.parse] ([None] when it throws),
    [JSON.stringify], whether [localStorage.setItem] has room for an item
    (it throws and stores nothing when it has not), and whether
    [localStorage.removeItem] returns (when it throws, nothing is
    removed). *)
Variable isValidDailyEntry isValidStockItem : value → bool.
Variable JSON_parse : string → option value.
Variable JSON_stringify : value → string.
Variable hasRoom : gmap string string → string → string → bool.
Variable canRemove : gmap string string → string → bool.

Definition isValidBusinessData (data : value) : bool :=
  if negb (typeofObject data) || isNull data then false
  else if negb (truthyValue (getProp data "settings"))
          || negb (isArray (getProp data "entries"))
          || negb (isArray (getProp data "stock")) then false
  else if negb (isValidBusinessSettings (getProp data "settings")) then false
  else if negb (every isValidDailyEntry (getProp data "entries")) then false
  else if negb (every isValidStockItem (getProp data "stock")) then false
  else true.

(** [loadData]: every failure, a thrown [SyntaxError] included, ends in the
    default data. *)
Definition loadData (w : World.t) : value :=
  if negb (World.window w) then getDefaultData
  else
    match World.localStorage w !! STORAGE_KEY with
    | None => getDefaultData
    | Some stored =>
        if String.eqb stored "" then getDefaultData
        else
          match JSON_parse stored with
          | None => getDefaultData
          | Some parsed =>
              if negb (isValidBusinessData parsed) then getDefaultData
              else parsed
          end
    end.

(** [saveData]: the result and the browser afterwards. *)
Definition saveData (data : value) (w : World.t) : bool * World.t :=
  if negb (World.window w) then (false, w)
  else if negb (isValidBusinessData data) then (false, w)
  else
    let text := JSON_stringify data in
    if hasRoom (World.localStorage w) STORAGE_KEY text then
      (true,
       {| World.window := World.window w;
          World.localStorage :=
            <[STORAGE_KEY := text]> (World.localStorage w) |})
    else (false, w).

(** [clearData]: the result and the browser afterwards; an exception of
    [removeItem] ends in the [catch] branch, which answers [false]. *)
Definition clearData (w : World.t) : bool * World.t :=
  if negb (World.window w) then (false, w)
  else if canRemove (World.localStorage w) STORAGE_KEY then
    (true,
     {| World.window := World.window w;
        World.localStorage := delete STORAGE_KEY (World.localStorage w) |})
  else (false, w).
End storage.

(** ** The product table ([ProductPerformanceTable]) *)

Inductive SortDirection : Type := asc | desc.

(** The three pieces of state of the component. *)
Module TableState.
Record t : Type := mk {
  sortField : string;
  sortDirection : SortDirection;
  searchTerm : string;
}.
(** [useState("performanceScore")], [useState("desc")], [useState("")] *)
Definition initial : t := mk "performanceScore" desc "".
End TableState.

(** [handleSort(field)]: the state after the click on a column header. *)
Definition handleSort (field : string) (st : TableState.t) : TableState.t :=
  if String.eqb field (TableState.sortField st) then
    {| TableState.sortField := TableState.sortField st;
       TableState.sortDirection :=
         match TableState.sortDirection st with asc => desc | desc => asc end;
       TableState.searchTerm := TableState.searchTerm st |}
  else
    {| TableState.sortField := field;
       TableState.sortDirection := desc;
       TableState.searchTerm := TableState.searchTerm st |}.

(** The value of [a[sortField]]: a number, a string, or [undefined] for a
    name that is no field of the record. *)
Inductive cell : Type :=
| CNum (n : num)
| CStr (s : string)
| CUndefined.

Definition rankCell (r : nat) : cell := CNum (Num.of_Z (Z.of_nat r)).

Definition readField (name : string) (p : ProductPerformance.t) : cell :=
  if String.eqb name "productId" then CStr (ProductPerformance.productId p)
  else if String.eqb name "productName"
  then CStr (ProductPerformance.productName p)
  else if String.eqb name "totalRevenue"
  then CNum (ProductPerformance.totalRevenue p)
  else if String.eqb name "unitsSold"
  then CNum (ProductPerformance.unitsSold p)
  else if String.eqb name "realizedProfit"
  then CNum (ProductPerformance.realizedProfit p)
  else if String.eqb name "projectedRevenue"
  then CNum (ProductPerformance.projectedRevenue p)
  else if String.eqb name "projectedProfit"
  then CNum (ProductPerformance.projectedProfit p)
  else if String.eqb name "realizationRate"
  then CNum (ProductPerformance.realizationRate p)
  else if String.eqb name "unrealizedValue"
  then CNum (ProductPerformance.unrealizedValue p)
  else if String.eqb name "performanceCategory"
  then CStr (ProductPerformance.performanceCategory p)
  else if String.eqb name "projectedMargin"
  then CNum (ProductPerformance.projectedMargin p)
  else if String.eqb name "currentStock"
  then CNum (ProductPerformance.currentStock p)
  else if String.eqb name "initialStock"
  then CNum (ProductPerformance.initialStock p)
  else if String.eqb name "stockTurnover"
  then CNum (ProductPerformance.stockTurnover p)
  else if String.eqb name "estimatedProfit"
  then CNum (ProductPerformance.estimatedProfit p)
  else if String.eqb name "profitMargin"
  then CNum (ProductPerformance.profitMargin p)
  else if String.eqb name "revenuePerUnit"
  then CNum (ProductPerformance.revenuePerUnit p)
  else if String.eqb name "performanceScore"
  then CNum (ProductPerformance.performanceScore p)
  else if String.eqb name "stockEfficiency"
  then CNum (ProductPerformance.stockEfficiency p)
  else if String.eqb name "daysOfStockLeft"
  then CNum (ProductPerformance.daysOfStockLeft p)
  else if String.eqb name "rankByRevenue"
  then rankCell (ProductPerformance.rankByRevenue p)
  else if String.eqb name "rankByProfit"
  then rankCell (ProductPerformance.rankByProfit p)
  else if String.eqb name "rankByEfficiency"
  then rankCell (ProductPerformance.rankByEfficiency p)
  else CUndefined.

Section table.
(** The string operations of the platform the component calls. *)
Variable toLowerCase : string → string.
Variable includes : string → string → bool.
Variable localeCompare : string → string → num.

(** The comparator given to [sort]. *)
Definition compareRows (st : TableState.t) (a b : ProductPerformance.t)
    : num :=
  match readField (TableState.sortField st) a,
        readField (TableState.sortField st) b with
  | CNum aVal, CNum bVal =>
      match TableState.sortDirection st with
      | asc => Num.sub aVal bVal
      | desc => Num.sub bVal aVal
      end
  | CStr aVal, CStr bVal =>
      match TableState.sortDirection st with
      | asc => localeCompare aVal bVal
      | desc => localeCompare bVal aVal
      end
  | _, _ => Num.zero
  end.

Definition filteredAndSortedProducts (st : TableState.t)
    (products : list ProductPerformance.t) : list ProductPerformance.t :=
  let filtered :=
    if negb (String.eqb (TableState.searchTerm st) "") then
      List.filter
        (λ p, includes (toLowerCase (ProductPerformance.productName p))
                       (toLowerCase (TableState.searchTerm st)))
        products
    else products in
  sort (compareRows st) filtered.
End table.

(** ** The entry form ([AddEntry]) *)

(** The entry the form saves. *)
Module FormEntry.
Record t : Type := mk {
  date : string;
  sales : num;
  expenses : num;
}.
End FormEntry.

(** [x || 0] on a number. *)
Definition orZero (x : num) : num := if Num.truthy x then x else Num.zero.

Section form.
Variable parseFloat : string → num.

(** [handleSubmit], on the three text fields of the form: the error message
    it leaves (empty when there is none) and the entry it hands to
    [onSave], if any. *)
Definition handleSubmit (date sales expenses : string)
    : string * option FormEntry.t :=
  let salesNum := orZero (parseFloat sales) in
  let expensesNum := orZero (parseFloat expenses) in
  if String.eqb date "" then ("Veuillez sélectionner une date", None)
  else if Num.lt salesNum Num.zero || Num.lt expensesNum Num.zero then
    ("Les montants ne peuvent pas être négatifs", None)
  else if Num.eq salesNum Num.zero && Num.eq expensesNum Num.zero then
    ("Veuillez entrer au moins des ventes ou des dépenses", None)
  else
    ("", Some {| FormEntry.date := date; FormEntry.sales := salesNum;
                 FormEntry.expenses := expensesNum |}).
End form.

(** A number that is zero or more, an infinity included, and not [NaN]. *)
Definition nonNegative (x : num) : Prop :=
  Num.lt Num.zero x = true ∨ x = Num.zero.




(** * The engine on IEEE 754 doubles

    A JavaScript [number] is an IEEE 754 binary64 value.  The module [IEEE]
    embeds the engine once more with the kernel's primitive [float] for
    [number], so that every sum, product and quotient is rounded, overflows
    and produces [NaN] the way it does when the code runs; a zero carries
    its sign.  The fields of the input records and the window are arbitrary
    doubles.  The properties that depend on the order of the additions or
    on the special values are stated on this embedding. *)

Global Instance float_eq_dec : EqDecision float.
Proof.
  intros x y. destruct (PrimFloat.Leibniz.eqb x y) eqn:E; [left|right].
  - by apply FloatAxioms.Leibniz.eqb_spec.
  - intros H. apply FloatAxioms.Leibniz.eqb_spec in H. congruence.
Defined.

Module IEEE.

Local Open Scope float_scope.

(** ** JavaScript numbers *)

Module Num.

(** [a > b] *)
Definition gt (a b : float) : bool := PrimFloat.ltb b a.

(** Truthiness of a number: [0], [-0] and [NaN] are falsy. *)
Definition truthy (a : float) : bool := negb (is_nan a || is_zero a).

(** [Math.min(a, b)]: [NaN] as soon as one argument is, and [-0] below
    [+0]. *)
Definition min (a b : float) : float :=
  if is_nan a || is_nan b then nan
  else if PrimFloat.ltb a b then a
  else if PrimFloat.ltb b a then b
  else if get_sign a then a else b.

(** [Math.round(a)]: the integer nearest to [a], a half rounding up; an
    integer, an infinity and [NaN] are returned as they are, and a negative
    number that rounds to zero gives [-0].  The sum [a + 1/2] is taken
    exactly. *)
Definition round (a : float) : float :=
  match Prim2SF a with
  | S754_finite s m e =>
      if (0 <=? e)%Z then a
      else
        let n := ((2 * cond_Zopp s (Zpos m) + 2 ^ (- e)) / 2 ^ (1 - e))%Z in
        if (n =? 0)%Z then (if s then neg_zero else zero)
        else SF2Prim (binary_normalize prec emax n 0 false)
  | _ => a
  end.

End Num.

(** ** Data model *)

Module DailyEntry.
Record t : Type := mk {
  productId : option string;
  type : string;
  amount : float;
  quantity : option float;
}.
End DailyEntry.

Module StockItem.
Record t : Type := mk {
  id : string;
  name : string;
  quantity : float;
  totalSold : float;
}.
End StockItem.

Module ProductData.
Record t : Type := mk {
  revenue : float;
  quantity : float;
  totalCost : float;
}.
Definition zero : t := {| revenue := 0; quantity := 0; totalCost := 0 |}.
End ProductData.

Module ProductPerformance.
Record t : Type := mk {
  productId : string;
  productName : string;
  totalRevenue : float;
  unitsSold : float;
  realizedProfit : float;
  profitMargin : float;
  projectedRevenue : float;
  projectedProfit : float;
  projectedMargin : float;
  currentStock : float;
  initialStock : float;
  realizationRate : float;
  unrealizedValue : float;
  stockEfficiency : float;
  daysOfStockLeft : float;
  performanceScore : float;
  performanceCategory : string;
  rankByRevenue : nat;
  rankByProfit : nat;
  rankByEfficiency : nat;
  stockTurnover : float;
  estimatedProfit : float;
  revenuePerUnit : float;
}.

Definition set_rankByRevenue (r : nat) (p : t) : t :=
  mk (productId p) (productName p) (totalRevenue p) (unitsSold p)
     (realizedProfit p) (profitMargin p) (projectedRevenue p)
     (projectedProfit p) (projectedMargin p) (currentStock p)
     (initialStock p) (realizationRate p) (unrealizedValue p)
     (stockEfficiency p) (daysOfStockLeft p) (performanceScore p)
     (performanceCategory p) r (rankByProfit p) (rankByEfficiency p)
     (stockTurnover p) (estimatedProfit p) (revenuePerUnit p).

Definition set_rankByProfit (r : nat) (p : t) : t :=
  mk (productId p) (productName p) (totalRevenue p) (unitsSold p)
     (realizedProfit p) (profitMargin p) (projectedRevenue p)
     (projectedProfit p) (projectedMargin p) (currentStock p)
     (initialStock p) (realizationRate p) (unrealizedValue p)
     (stockEfficiency p) (daysOfStockLeft p) (performanceScore p)
     (performanceCategory p) (rankByRevenue p) r (rankByEfficiency p)
     (stockTurnover p) (estimatedProfit p) (revenuePerUnit p).

Definition set_rankByEfficiency (r : nat) (p : t) : t :=
  mk (productId p) (productName p) (totalRevenue p) (unitsSold p)
     (realizedProfit p) (profitMargin p) (projectedRevenue p)
     (projectedProfit p) (projectedMargin p) (currentStock p)
     (initialStock p) (realizationRate p) (unrealizedValue p)
     (stockEfficiency p) (daysOfStockLeft p) (performanceScore p)
     (performanceCategory p) (rankByRevenue p) (rankByProfit p) r
     (stockTurnover p) (estimatedProfit p) (revenuePerUnit p).

Global Instance inhabited : Inhabited t :=
  populate (mk "" "" nan nan nan nan nan nan nan nan nan nan nan nan nan
               nan "" 0 0 0 nan nan nan).
End ProductPerformance.

Module Summary.
Record t : Type := mk {
  totalRevenue : float;
  totalProfit : float;
  averageMargin : float;
  bestByRevenue : option ProductPerformance.t;
  bestByProfit : option ProductPerformance.t;
  bestByScore : option ProductPerformance.t;
  totalProductsAnalyzed : nat;
}.
End Summary.

Module Report.
Record t : Type := mk {
  products : list ProductPerformance.t;
  summary : Summary.t;
}.
End Report.

(** ** [categorizePerformance] *)

Definition categorizePerformance
    (realizedProfit projectedProfit realizationRate currentStock : float)
    : string :=
  if PrimFloat.eqb realizationRate 0 then "NOT_STARTED"
  else if PrimFloat.eqb currentStock 0 then
    if Num.gt realizedProfit 0 then "COMPLETED_PROFITABLE"
    else if PrimFloat.eqb realizedProfit 0 then "COMPLETED_BREAKEVEN"
    else "COMPLETED_LOSS"
  else if PrimFloat.ltb realizationRate 100 then
    if Num.gt realizedProfit 0 && Num.gt projectedProfit 0
    then "IN_PROGRESS_STRONG"
    else if PrimFloat.ltb realizedProfit 0 && Num.gt projectedProfit 0
    then "IN_PROGRESS_RECOVERING"
    else if PrimFloat.ltb realizedProfit 0 && PrimFloat.ltb projectedProfit 0
    then "IN_PROGRESS_TROUBLED"
    else if Num.gt realizedProfit 0 && PrimFloat.ltb projectedProfit 0
    then "IN_PROGRESS_DECLINING"
    else "IN_PROGRESS_NEUTRAL"
  else "UNKNOWN".

(** ** [calculateScore] *)

Module weights.
#[warnings="-inexact-float"]
Definition revenue : float := 0.2.
#[warnings="-inexact-float"]
Definition profit : float := 0.3.
#[warnings="-inexact-float"]
Definition efficiency : float := 0.2.
#[warnings="-inexact-float"]
Definition turnover : float := 0.15.
#[warnings="-inexact-float"]
Definition margin : float := 0.15.
#[warnings="-inexact-float"]
Definition realization : float := 0.1.
End weights.

Definition calculateScore
    (revenue profit efficiency turnover margin realizationRate : float)
    : float :=
  let revenueScore := Num.min (revenue / 100000 * 100) 100 in
  let profitScore := Num.min (profit / 50000 * 100) 100 in
  let efficiencyScore := Num.min efficiency 100 in
  let turnoverScore := Num.min (turnover * 50) 100 in
  let marginScore := Num.min margin 100 in
  let realizationScore := Num.min realizationRate 100 in
  Num.round
    (revenueScore * weights.revenue
     + profitScore * weights.profit
     + efficiencyScore * weights.efficiency
     + turnoverScore * weights.turnover
     + marginScore * weights.margin
     + realizationScore * weights.realization).

(** ** The aggregation loop of [calculateProductPerformance] *)

(** [entry.quantity || 0] *)
Definition quantity_or_0 (quantity : option float) : float :=
  match quantity with
  | Some q => if Num.truthy q then q else 0
  | None => 0
  end.

(** The body of [entries.forEach((entry) => ...)]. *)
Definition addEntry (dataByProduct : gmap string ProductData.t)
    (entry : DailyEntry.t) : gmap string ProductData.t :=
  match truthy_id (DailyEntry.productId entry) with
  | Some pid =>
      let current := default ProductData.zero (dataByProduct !! pid) in
      if String.eqb (DailyEntry.type entry) "SALE" then
        <[pid := {| ProductData.revenue :=
                      ProductData.revenue current + DailyEntry.amount entry;
                    ProductData.quantity :=
                      ProductData.quantity current
                      + quantity_or_0 (DailyEntry.quantity entry);
                    ProductData.totalCost := ProductData.totalCost current |}]>
          dataByProduct
      else if String.eqb (DailyEntry.type entry) "EXPENSE"
              || String.eqb (DailyEntry.type entry) "STOCK_IN" then
        <[pid := {| ProductData.revenue := ProductData.revenue current;
                    ProductData.quantity := ProductData.quantity current;
                    ProductData.totalCost :=
                      ProductData.totalCost current
                      + DailyEntry.amount entry |}]>
          dataByProduct
      else dataByProduct
  | None => dataByProduct
  end.

Definition aggregate (entries : list DailyEntry.t)
    : gmap string ProductData.t :=
  foldl addEntry ∅ entries.

(** ** The metrics of one stock item *)

(** The body of [stockItems.map((item) => ...)]. *)
Definition performanceOf (dataByProduct : gmap string ProductData.t)
    (daysToAnalyze : float) (item : StockItem.t) : ProductPerformance.t :=
  let data := default ProductData.zero (dataByProduct !! StockItem.id item) in
  let initialStock := StockItem.totalSold item + StockItem.quantity item in
  let actualCost := ProductData.totalCost data in
  let actualProfit := ProductData.revenue data - actualCost in
  let avgPrice :=
    if Num.gt (ProductData.quantity data) 0
    then ProductData.revenue data / ProductData.quantity data
    else 0 in
  let avgStock := (initialStock + StockItem.quantity item) / 2 in
  let stockTurnover :=
    if Num.gt avgStock 0 then ProductData.quantity data / avgStock else 0 in
  let dailySalesRate := ProductData.quantity data / daysToAnalyze in
  let daysOfStockLeft :=
    if Num.gt dailySalesRate 0
    then StockItem.quantity item / dailySalesRate
    else infinity in
  let stockEfficiency :=
    if Num.gt initialStock 0
    then ProductData.quantity data / initialStock * 100
    else 0 in
  let profitMargin :=
    if Num.gt (ProductData.revenue data) 0
    then actualProfit / ProductData.revenue data * 100
    else 0 in
  let projectedRevenue :=
    ProductData.revenue data + StockItem.quantity item * avgPrice in
  let projectedProfit := projectedRevenue - actualCost in
  let realizationRate :=
    if Num.gt initialStock 0
    then ProductData.quantity data / initialStock * 100
    else 0 in
  let unrealizedValue := StockItem.quantity item * avgPrice in
  let performanceScore :=
    calculateScore (ProductData.revenue data) actualProfit stockEfficiency
                   stockTurnover profitMargin realizationRate in
  let projectedMargin :=
    if Num.gt projectedRevenue 0
    then projectedProfit / projectedRevenue * 100
    else 0 in
  let performanceCategory :=
    categorizePerformance actualProfit projectedProfit realizationRate
                          (StockItem.quantity item) in
  {| ProductPerformance.productId := StockItem.id item;
     ProductPerformance.productName := StockItem.name item;
     ProductPerformance.totalRevenue := ProductData.revenue data;
     ProductPerformance.unitsSold := ProductData.quantity data;
     ProductPerformance.realizedProfit := actualProfit;
     ProductPerformance.profitMargin := profitMargin;
     ProductPerformance.projectedRevenue :=
       ProductData.revenue data + StockItem.quantity item * avgPrice;
     ProductPerformance.projectedProfit :=
       ProductData.revenue data + StockItem.quantity item * avgPrice
       - actualCost;
     ProductPerformance.projectedMargin := projectedMargin;
     ProductPerformance.currentStock := StockItem.quantity item;
     ProductPerformance.initialStock := initialStock;
     ProductPerformance.realizationRate := realizationRate;
     ProductPerformance.unrealizedValue := unrealizedValue;
     ProductPerformance.stockEfficiency := stockEfficiency;
     ProductPerformance.daysOfStockLeft := daysOfStockLeft;
     ProductPerformance.performanceScore := performanceScore;
     ProductPerformance.performanceCategory := performanceCategory;
     ProductPerformance.rankByRevenue := 0;
     ProductPerformance.rankByProfit := 0;
     ProductPerformance.rankByEfficiency := 0;
     ProductPerformance.stockTurnover := stockTurnover;
     ProductPerformance.estimatedProfit := actualProfit;
     ProductPerformance.revenuePerUnit := avgPrice |}.

(** ** Objects and arrays

    As in the first embedding the records live in a store, a list indexed
    by address, and an array of records is a list of addresses. *)

Abbreviation heap := (list ProductPerformance.t) (only parsing).

(** [Array.prototype.sort] with a comparator: a stable sort, in which a
    comparator value of [NaN] counts as [0].  For a consistent comparator
    its result does not depend on the algorithm the engine runs; it is
    modelled by a stable insertion sort, an element moving behind its right
    neighbour only where the comparator is positive. *)
Fixpoint sortInsert {A : Type} (cmp : A → A → float) (x : A) (l : list A)
    : list A :=
  match l with
  | [] => [x]
  | y :: l' =>
      if Num.gt (cmp x y) 0 then y :: sortInsert cmp x l' else x :: l
  end.

Definition sort {A : Type} (cmp : A → A → float) (l : list A) : list A :=
  foldr (sortInsert cmp) [] l.

(** One pass of [addRankings]: sort a copy of the array on a key, then
    write the ranks. *)
Definition rankPass (key : ProductPerformance.t → float)
    (set_rank : nat → ProductPerformance.t → ProductPerformance.t)
    (products : list nat) (h : heap) : heap :=
  forEach (λ p i, alter (set_rank (i + 1)%nat) p)
          (sort (λ a b, key (h !!! b) - key (h !!! a)) products) h.

(** ** [addRankings] *)

Definition addRankings (products : list nat) (h : heap) : heap :=
  let byRevenue :=
    sort (λ a b, ProductPerformance.totalRevenue (h !!! b)
                 - ProductPerformance.totalRevenue (h !!! a))
         products in
  let h1 :=
    forEach (λ p i, alter (ProductPerformance.set_rankByRevenue (i + 1)) p)
            byRevenue h in
  let byProfit :=
    sort (λ a b, ProductPerformance.estimatedProfit (h1 !!! b)
                 - ProductPerformance.estimatedProfit (h1 !!! a))
         products in
  let h2 :=
    forEach (λ p i, alter (ProductPerformance.set_rankByProfit (i + 1)) p)
            byProfit h1 in
  let byEfficiency :=
    sort (λ a b, ProductPerformance.stockEfficiency (h2 !!! b)
                 - ProductPerformance.stockEfficiency (h2 !!! a))
         products in
  forEach (λ p i, alter (ProductPerformance.set_rankByEfficiency (i + 1)) p)
          byEfficiency h2.

(** ** [calculateSummary] *)

Definition calculateSummary (products : list nat) (h : heap) : Summary.t :=
  let totalRevenue :=
    foldl (λ sum p, sum + ProductPerformance.totalRevenue (h !!! p))
          0%float products in
  let totalProfit :=
    foldl (λ sum p, sum + ProductPerformance.estimatedProfit (h !!! p))
          0%float products in
  let avgMargin :=
    if Num.gt totalRevenue 0 then totalProfit / totalRevenue * 100 else 0 in
  let bestByRevenue :=
    reduce1 (λ best p,
               if Num.gt (ProductPerformance.totalRevenue (h !!! p))
                         (ProductPerformance.totalRevenue (h !!! best))
               then p else best) products in
  let bestByProfit :=
    reduce1 (λ best p,
               if Num.gt (ProductPerformance.estimatedProfit (h !!! p))
                         (ProductPerformance.estimatedProfit (h !!! best))
               then p else best) products in
  let bestByScore :=
    reduce1 (λ best p,
               if Num.gt (ProductPerformance.performanceScore (h !!! p))
                         (ProductPerformance.performanceScore (h !!! best))
               then p else best) products in
  {| Summary.totalRevenue := totalRevenue;
     Summary.totalProfit := totalProfit;
     Summary.averageMargin := avgMargin;
     Summary.bestByRevenue := (h !!!.) <$> bestByRevenue;
     Summary.bestByProfit := (h !!!.) <$> bestByProfit;
     Summary.bestByScore := (h !!!.) <$> bestByScore;
     Summary.totalProductsAnalyzed := length products |}.

(** ** [calculateProductPerformance] *)

(** The objects that [stockItems.map] allocates, at addresses [0 .. n-1]. *)
Definition allocated (dataByProduct : gmap string ProductData.t)
    (daysToAnalyze : float) (stockItems : list StockItem.t) : heap :=
  map (performanceOf dataByProduct daysToAnalyze) stockItems.

(** The addresses that [products.filter((p) => p.unitsSold > 0)] keeps. *)
Definition active (h : heap) : list nat :=
  List.filter
    (λ p, Num.gt (ProductPerformance.unitsSold (h !!! p)) 0)
    (seq 0 (length h)).

(** [daysToAnalyze = 30]: the default of the argument when it is left
    out. *)
Definition daysOrDefault (daysToAnalyze : option float) : float :=
  match daysToAnalyze with
  | Some d => d
  | None => 30
  end.

Definition calculateProductPerformance (entries : list DailyEntry.t)
    (stockItems : list StockItem.t) (daysToAnalyze : option float)
    : Report.t :=
  let daysToAnalyze := daysOrDefault daysToAnalyze in
  let dataByProduct := aggregate entries in
  let products := allocated dataByProduct daysToAnalyze stockItems in
  let activeProducts := active products in
  let withRankings := addRankings activeProducts products in
  {| Report.products := (withRankings !!!.) <$> activeProducts;
     Report.summary := calculateSummary activeProducts withRankings |}.

(** Sample inputs. *)
Definition sale (pid : string) (amount quantity : float) : DailyEntry.t :=
  DailyEntry.mk (Some pid) "SALE" amount (Some quantity).
Definition expense (pid : string) (amount : float) : DailyEntry.t :=
  DailyEntry.mk (Some pid) "EXPENSE" amount None.
Definition stock (id : string) (quantity totalSold : float) : StockItem.t :=
  StockItem.mk id id quantity totalSold.

(** ** Notions used in the statements *)

(** The aggregate the engine reads for a product id. *)
Definition dataOf (dataByProduct : gmap string ProductData.t) (pid : string)
    : ProductData.t :=
  default ProductData.zero (dataByProduct !! pid).

(** The sum of a list of doubles the way a loop takes it: from left to
    right, starting from [0], each partial sum rounded. *)
Definition runningSum (l : list float) : float := foldl PrimFloat.add 0 l.

Definition isSaleOf (pid : string) (e : DailyEntry.t) : bool :=
  bool_decide (DailyEntry.productId e = Some pid)
  && String.eqb (DailyEntry.type e) "SALE".

Definition isCostOf (pid : string) (e : DailyEntry.t) : bool :=
  bool_decide (DailyEntry.productId e = Some pid)
  && (String.eqb (DailyEntry.type e) "EXPENSE"
      || String.eqb (DailyEntry.type e) "STOCK_IN").

(** The quantity an entry adds: [0] when it is absent, zero or [NaN]. *)
Definition quantityOf (e : DailyEntry.t) : float :=
  quantity_or_0 (DailyEntry.quantity e).

(** An entry of a type other than the three the engine reads, or without a
    product id ([undefined], or the empty string). *)
Definition ignored (e : DailyEntry.t) : Prop :=
  truthy_id (DailyEntry.productId e) = None
  ∨ (DailyEntry.type e ≠ "SALE" ∧ DailyEntry.type e ≠ "EXPENSE"
     ∧ DailyEntry.type e ≠ "STOCK_IN").

(** What one entry does to the map at one key. *)
Definition stepAt (pid : string) (o : option ProductData.t)
    (e : DailyEntry.t) : option ProductData.t :=
  if bool_decide (truthy_id (DailyEntry.productId e) = Some pid) then
    let current := default ProductData.zero o in
    if String.eqb (DailyEntry.type e) "SALE" then
      Some {| ProductData.revenue :=
                ProductData.revenue current + DailyEntry.amount e;
              ProductData.quantity :=
                ProductData.quantity current
                + quantity_or_0 (DailyEntry.quantity e);
              ProductData.totalCost := ProductData.totalCost current |}
    else if String.eqb (DailyEntry.type e) "EXPENSE"
            || String.eqb (DailyEntry.type e) "STOCK_IN" then
      Some {| ProductData.revenue := ProductData.revenue current;
              ProductData.quantity := ProductData.quantity current;
              ProductData.totalCost :=
                ProductData.totalCost current + DailyEntry.amount e |}
    else o
  else o.

(** The aggregate after the SALE entries [sales] and the EXPENSE and
    STOCK_IN entries [costs] of a product, from the aggregate [d]: three
    sums taken from left to right. *)
Definition dataAfter (d : ProductData.t) (sales costs : list DailyEntry.t)
    : ProductData.t :=
  {| ProductData.revenue :=
       foldl PrimFloat.add (ProductData.revenue d)
             (DailyEntry.amount <$> sales);
     ProductData.quantity :=
       foldl PrimFloat.add (ProductData.quantity d) (quantityOf <$> sales);
     ProductData.totalCost :=
       foldl PrimFloat.add (ProductData.totalCost d)
             (DailyEntry.amount <$> costs) |}.

(** Two entry lists in which every product has the same SALE entries in
    the same order and the same EXPENSE and STOCK_IN entries in the same
    order. *)
Definition sameOrderPerProduct (entries entries' : list DailyEntry.t)
    : Prop :=
  ∀ pid, List.filter (isSaleOf pid) entries
         = List.filter (isSaleOf pid) entries'
         ∧ List.filter (isCostOf pid) entries
           = List.filter (isCostOf pid) entries'.

(** The order of a stable descending sort: a greater key first and, on
    equal keys, the earlier position first. *)
Definition before {A : Type} (key : A → Z) (pos : A → nat) (x y : A)
    : Prop :=
  (key y < key x)%Z ∨ (key x = key y ∧ (pos x < pos y)%nat).

(** What the specification asks of one ranking of a product list: the
    ranks are a permutation of [1 .. N]; the stable descending sort of the
    list on the key lists the ranks [1, 2, ..., N] in this order; and a
    record ranks before another exactly when its key is greater or, the
    keys being equal as numbers, when it comes first in the list. *)
Definition ranked (key : ProductPerformance.t → float)
    (rank : ProductPerformance.t → nat) (ps : list ProductPerformance.t)
    : Prop :=
  rank <$> ps ≡ₚ seq 1 (length ps)
  ∧ rank <$> sort (λ a b, key b - key a) ps = seq 1 (length ps)
  ∧ ∀ i j p q, ps !! i = Some p → ps !! j = Some q →
      ((rank p < rank q)%nat
       ↔ PrimFloat.ltb (key q) (key p) = true
         ∨ (PrimFloat.eqb (key p) (key q) = true ∧ (i < j)%nat)).

(** A list of records none of which has [NaN] for a key. *)
Definition noNaN (key : ProductPerformance.t → float)
    (ps : list ProductPerformance.t) : Prop :=
  Forall (λ p, is_nan (key p) = false) ps.

(** [b] is the first record of the list whose key is maximal. *)
Definition firstMaximum (key : ProductPerformance.t → float)
    (ps : list ProductPerformance.t) (b : ProductPerformance.t) : Prop :=
  ∃ i, ps !! i = Some b
    ∧ ∀ j q, ps !! j = Some q →
        Num.gt (key q) (key b) = false
        ∧ ((j < i)%nat → PrimFloat.ltb (key q) (key b) = true).

(** The reducer of the three [best] computations of [calculateSummary]. *)
Definition better {A : Type} (key : A → float) (best p : A) : A :=
  if Num.gt (key p) (key best) then p else best.

End IEEE.

(** ** The doubles as integers

    A finite double is an integer multiple of [2 ^ -1074]: [ord] gives this
    multiple, and a bound on every finite double for an infinity, so that
    the order of two doubles that are not [NaN] is the order of their
    [ord]. *)
Definition ord (x : spec_float) : Z :=
  match x with
  | S754_zero _ => 0
  | S754_infinity s => cond_Zopp s (2 ^ 2100)
  | S754_nan => 0
  | S754_finite s m e => cond_Zopp s (Zpos m * 2 ^ (e + 1074))
  end.

(** A float of sign [s] that is not zero. *)
Definition signed (s : bool) (x : spec_float) : Prop :=
  match x with
  | S754_finite s' _ _ | S754_infinity s' => s' = s
  | _ => False
  end.

(** The same on the primitive doubles. *)
Definition ford (x : float) : Z := ord (Prim2SF x).

(** * Properties *)

(** ** Numbers *)

Lemma Qcltb_true (a b : Qc) : Qcltb a b = true ↔ a < b.
Proof. unfold Qcltb. apply bool_decide_eq_true. Qed.

Lemma Qcltb_false (a b : Qc) : Qcltb a b = false ↔ b ≤ a.
Proof.
  unfold Qcltb. rewrite bool_decide_eq_false. symmetry. apply Qcle_ngt.
Qed.

Lemma Qceqb_true (a b : Qc) : Qceqb a b = true ↔ a = b.
Proof. unfold Qceqb. apply bool_decide_eq_true. Qed.

Lemma Qceqb_false (a b : Qc) : Qceqb a b = false ↔ a ≠ b.
Proof. unfold Qceqb. apply bool_decide_eq_false. Qed.

Lemma Num_eq_true (a b : num) : Num.eq a b = true → a = b.
Proof.
  destruct a, b; simpl; try discriminate; try reflexivity.
  intros H. apply Qceqb_true in H. by subst.
Qed.

(** Closes a goal [a = b] between two closed numbers by evaluation. *)
Ltac num_compute := apply Num_eq_true; vm_compute; reflexivity.

(** Closes a closed decidable goal by evaluating its decision procedure. *)
Ltac by_evaluation := apply (bool_decide_unpack _); vm_compute; exact I.

(** ** Realization rate and stock efficiency *)

(** C8: for every stock item and aggregate, the [realizationRate] and the
    [stockEfficiency] of the record are equal: both are
    [(quantitySold / initialStock) * 100] when [initialStock > 0] and both
    are [0] otherwise, with [initialStock = totalSold + quantity]. *)
Theorem realizationRate_eq_stockEfficiency
    (dataByProduct : gmap string ProductData.t) (daysToAnalyze : num)
    (item : StockItem.t) :
  let p := performanceOf dataByProduct daysToAnalyze item in
  let quantitySold :=
    ProductData.quantity
      (default ProductData.zero (dataByProduct !! StockItem.id item)) in
  let initialStock :=
    Num.add (Fin (StockItem.totalSold item)) (Fin (StockItem.quantity item)) in
  let rate :=
    if Num.gt initialStock Num.zero
    then Num.mul (Num.div quantitySold initialStock) (Num.of_Z 100)
    else Num.zero in
  ProductPerformance.realizationRate p = ProductPerformance.stockEfficiency p
  ∧ ProductPerformance.realizationRate p = rate
  ∧ ProductPerformance.stockEfficiency p = rate
  ∧ ProductPerformance.initialStock p = initialStock
  ∧ ProductPerformance.unitsSold p = quantitySold.
Proof. repeat split. Qed.

(** ** The aggregation loop *)

Lemma lookup_addEntry (m : gmap string ProductData.t) (e : DailyEntry.t)
    (pid : string) :
  addEntry m e !! pid = stepAt pid (m !! pid) e.
Proof.
  unfold addEntry, stepAt.
  destruct (truthy_id (DailyEntry.productId e)) as [k|] eqn:Hk.
  - case_bool_decide as Hp.
    + injection Hp as ->.
      destruct (String.eqb (DailyEntry.type e) "SALE");
        [by rewrite lookup_insert_eq|].
      destruct (String.eqb (DailyEntry.type e) "EXPENSE"
                || String.eqb (DailyEntry.type e) "STOCK_IN");
        [by rewrite lookup_insert_eq|done].
    + assert (k ≠ pid) by congruence.
      destruct (String.eqb (DailyEntry.type e) "SALE");
        [by rewrite lookup_insert_ne|].
      destruct (String.eqb (DailyEntry.type e) "EXPENSE"
                || String.eqb (DailyEntry.type e) "STOCK_IN");
        [by rewrite lookup_insert_ne|done].
  - by rewrite bool_decide_eq_false_2.
Qed.

Lemma lookup_foldl_addEntry (entries : list DailyEntry.t)
    (m : gmap string ProductData.t) (pid : string) :
  foldl addEntry m entries !! pid = foldl (stepAt pid) (m !! pid) entries.
Proof.
  revert m. induction entries as [|e entries IH]; intros m; simpl; [done|].
  by rewrite IH, lookup_addEntry.
Qed.

Lemma lookup_aggregate (entries : list DailyEntry.t) (pid : string) :
  aggregate entries !! pid = foldl (stepAt pid) None entries.
Proof. unfold aggregate. by rewrite lookup_foldl_addEntry, lookup_empty. Qed.

Lemma truthy_id_Some (o : option string) (pid : string) :
  truthy_id o = Some pid ↔ o = Some pid ∧ pid ≠ "".
Proof.
  unfold truthy_id. destruct o as [k|]; [|by split; [|intros []]].
  destruct (String.eqb_spec k "") as [->|Hk]; split.
  - done.
  - by intros [[= <-] ?].
  - by intros [= <-].
  - by intros [[= <-] _].
Qed.

(** ** Entries of products that are not in stock *)

Lemma performanceOf_ext (m m' : gmap string ProductData.t) (d : num)
    (item : StockItem.t) :
  m !! StockItem.id item = m' !! StockItem.id item →
  performanceOf m d item = performanceOf m' d item.
Proof. intros H. unfold performanceOf. by rewrite H. Qed.

Lemma foldl_stepAt_filter (stockItems : list StockItem.t)
    (item : StockItem.t) (entries : list DailyEntry.t)
    (o : option ProductData.t) :
  item ∈ stockItems →
  foldl (stepAt (StockItem.id item)) o
        (List.filter (hasStockItem stockItems) entries)
  = foldl (stepAt (StockItem.id item)) o entries.
Proof.
  intros Hin. revert o.
  induction entries as [|e entries IH]; intros o; simpl; [done|].
  destruct (hasStockItem stockItems e) eqn:Hk; simpl; [apply IH|].
  rewrite IH. f_equal. unfold stepAt.
  case_bool_decide as Hp; [|done].
  apply truthy_id_Some in Hp as [Hp _].
  assert (hasStockItem stockItems e = true); [|congruence].
  apply existsb_exists. exists item. split.
  - by apply list_elem_of_In.
  - by apply bool_decide_eq_true.
Qed.

(** C10: dropping every entry whose product id is the id of no stock item
    leaves the products and the summary of the engine unchanged. *)
Theorem entries_without_stock_item_unobservable
    (entries : list DailyEntry.t) (stockItems : list StockItem.t)
    (daysToAnalyze : option Qc) :
  calculateProductPerformance
    (List.filter (hasStockItem stockItems) entries) stockItems daysToAnalyze
  = calculateProductPerformance entries stockItems daysToAnalyze.
Proof.
  unfold calculateProductPerformance.
  assert (allocated (aggregate (List.filter (hasStockItem stockItems) entries))
            (daysOrDefault daysToAnalyze) stockItems
          = allocated (aggregate entries) (daysOrDefault daysToAnalyze)
              stockItems) as ->; [|done].
  unfold allocated. apply map_ext_in. intros item Hin%list_elem_of_In.
  apply performanceOf_ext. rewrite !lookup_aggregate.
  by apply foldl_stepAt_filter.
Qed.

(** ** The composite score *)

Lemma Num_min_fin (a b : Qc) : ∃ c, Num.min (Fin a) (Fin b) = Fin c.
Proof. unfold Num.min. simpl. destruct (Qcltb b a); eauto. Qed.

Lemma Num_div_fin (a b : Qc) :
  b ≠ 0 → Num.div (Fin a) (Fin b) = Fin (a / b).
Proof. intros H%Qceqb_false. simpl. by rewrite H. Qed.

Lemma Qc_of_Z_nonzero (z : Z) : z ≠ 0%Z → Qc_of_Z z ≠ 0.
Proof.
  intros Hz H. apply (f_equal this) in H. simpl in H.
  injection H as H. contradiction.
Qed.

(** The score of finite metrics is an integer. *)
Lemma calculateScore_integer (revenue profit efficiency turnover margin
    realizationRate : Qc) :
  ∃ z : Z,
    calculateScore (Fin revenue) (Fin profit) (Fin efficiency) (Fin turnover)
                   (Fin margin) (Fin realizationRate) = Num.of_Z z.
Proof.
  unfold calculateScore, weights.revenue, weights.profit, weights.efficiency,
    weights.turnover, weights.margin, weights.realization, Num.dec.
  unfold Num.of_Z at 1 2 3 4 5 6 7 8 9 10 11.
  rewrite !Num_div_fin by (by apply Qc_of_Z_nonzero).
  cbn [Num.mul].
  destruct (Num_min_fin (revenue / Qc_of_Z 100000 * Qc_of_Z 100)
              (Qc_of_Z 100)) as [c1 ->].
  destruct (Num_min_fin (profit / Qc_of_Z 50000 * Qc_of_Z 100)
              (Qc_of_Z 100)) as [c2 ->].
  destruct (Num_min_fin efficiency (Qc_of_Z 100)) as [c3 ->].
  destruct (Num_min_fin (turnover * Qc_of_Z 50) (Qc_of_Z 100)) as [c4 ->].
  destruct (Num_min_fin margin (Qc_of_Z 100)) as [c5 ->].
  destruct (Num_min_fin realizationRate (Qc_of_Z 100)) as [c6 ->].
  cbn [Num.mul Num.add Num.round]. eauto.
Qed.

(** Rewrites a goal on [Qc] into one on [Q], for [lra]. *)
Ltac qc_to_q :=
  unfold Qcle, Qclt, Qcdiv, Qcmult, Qcplus, Qcinv, Qcopp, Qcminus, Q2Qc,
    Qc_of_Z in *;
  cbn [this] in *; rewrite ?Qred_correct in *;
  change (inject_Z 100000) with (100000 # 1)%Q in *;
  change (inject_Z 50000) with (50000 # 1)%Q in *;
  change (inject_Z 110) with (110 # 1)%Q in *;
  change (inject_Z 100) with (100 # 1)%Q in *;
  change (inject_Z 50) with (50 # 1)%Q in *;
  change (/ (100000 # 1))%Q with (1 # 100000)%Q in *;
  change (/ (50000 # 1))%Q with (1 # 50000)%Q in *.

Lemma Num_min_cap (a : Qc) :
  0 ≤ a →
  ∃ c, Num.min (Fin a) (Fin (Qc_of_Z 100)) = Fin c
       ∧ 0 ≤ c ∧ c ≤ Qc_of_Z 100.
Proof.
  intros Ha. unfold Num.min. cbn [Num.lt].
  destruct (Qcltb (Qc_of_Z 100) a) eqn:E.
  - exists (Qc_of_Z 100). split; [done|]. split; [|apply Qcle_refl].
    qc_to_q. lra.
  - exists a. split; [done|]. split; [done|]. by apply Qcltb_false.
Qed.

(** What the code guarantees of the score of non-negative metrics: an
    integer between 0 and 110. *)
Lemma calculateScore_range (revenue profit efficiency turnover margin
    realizationRate : Qc) :
  0 ≤ revenue → 0 ≤ profit → 0 ≤ efficiency → 0 ≤ turnover → 0 ≤ margin →
  0 ≤ realizationRate →
  ∃ z : Z,
    calculateScore (Fin revenue) (Fin profit) (Fin efficiency) (Fin turnover)
                   (Fin margin) (Fin realizationRate) = Num.of_Z z
    ∧ (0 ≤ z ≤ 110)%Z.
Proof.
  intros Hr Hp He Ht Hm Hrr.
  unfold calculateScore, weights.revenue, weights.profit, weights.efficiency,
    weights.turnover, weights.margin, weights.realization, Num.dec.
  unfold Num.of_Z at 1 2 3 4 5 6 7 8 9 10 11.
  rewrite !Num_div_fin by (by apply Qc_of_Z_nonzero).
  cbn [Num.mul].
  destruct (Num_min_cap (revenue / Qc_of_Z 100000 * Qc_of_Z 100))
    as (c1 & -> & L1 & U1); [qc_to_q; lra|].
  destruct (Num_min_cap (profit / Qc_of_Z 50000 * Qc_of_Z 100))
    as (c2 & -> & L2 & U2); [qc_to_q; lra|].
  destruct (Num_min_cap efficiency) as (c3 & -> & L3 & U3); [done|].
  destruct (Num_min_cap (turnover * Qc_of_Z 50))
    as (c4 & -> & L4 & U4); [qc_to_q; lra|].
  destruct (Num_min_cap margin) as (c5 & -> & L5 & U5); [done|].
  destruct (Num_min_cap realizationRate) as (c6 & -> & L6 & U6); [done|].
  cbn [Num.mul Num.add Num.round].
  eexists. split; [reflexivity|].
  clear Hr Hp He Ht Hm Hrr.
  split.
  - change 0%Z with (Qfloor 0). apply Qfloor_resp_le. qc_to_q. lra.
  - change 110%Z with (Qfloor ((110 # 1) + (1 # 2))).
    apply Qfloor_resp_le. qc_to_q. lra.
Qed.

(** The score of a product whose six metrics are zero is zero. *)
Lemma calculateScore_zero :
  calculateScore Num.zero Num.zero Num.zero Num.zero Num.zero Num.zero
  = Num.zero.
Proof. num_compute. Qed.

(** C3: the score is the rounded weighted sum of the six capped sub-scores,
    an integer, and 0 at zero metrics, but it is not bounded by 100: the six
    weights add up to 1.1, so a product whose six sub-scores are all capped
    at 100 scores 110.  Here, 200000 of revenue without cost on 10 units
    sold out of 10. *)
Theorem score_exceeds_100 :
  calculateScore (Num.of_Z 200000) (Num.of_Z 200000) (Num.of_Z 100)
                 (Num.of_Z 2) (Num.of_Z 100) (Num.of_Z 100)
  = Num.of_Z 110
  ∧ (let r :=
       calculateProductPerformance [sale "a" 200000 10] [stock "a" 0 10]
                                   None in
     (λ p, (ProductPerformance.totalRevenue p,
            ProductPerformance.realizedProfit p,
            ProductPerformance.stockEfficiency p,
            ProductPerformance.stockTurnover p,
            ProductPerformance.profitMargin p,
            ProductPerformance.realizationRate p,
            ProductPerformance.performanceScore p)) <$> Report.products r
     = [(Num.of_Z 200000, Num.of_Z 200000, Num.of_Z 100, Num.of_Z 2,
         Num.of_Z 100, Num.of_Z 100, Num.of_Z 110)])
  ∧ Num.gt (Num.of_Z 110) (Num.of_Z 100) = true
  ∧ Num.add (Num.add (Num.add (Num.add (Num.add weights.revenue
      weights.profit) weights.efficiency) weights.turnover) weights.margin)
      weights.realization = Num.dec 11 10.
Proof.
  split; [num_compute|]. split; [|split; [reflexivity|num_compute]].
  cbv zeta. by_evaluation.
Qed.

(** ** The stock runway over an empty window *)

(** C4: with [daysToAnalyze = 0] the division [quantity / daysToAnalyze] is
    carried out: for a product with sales it yields [Infinity], the test
    [dailySalesRate > 0] passes, and [daysOfStockLeft] is
    [item.quantity / Infinity = 0], not the infinite sentinel.  The sentinel
    is returned only where nothing was sold ([0 / 0] is [NaN]). *)
Theorem zero_window_runway :
  ProductPerformance.daysOfStockLeft
    <$> Report.products
          (calculateProductPerformance [sale "a" 100 10] [stock "a" 5 10]
                                       (Some 0))
  = [Num.zero]
  ∧ ProductPerformance.daysOfStockLeft
      (performanceOf (aggregate [sale "a" 100 10]) (Fin 0) (stock "a" 5 10))
    = Num.zero
  ∧ Num.zero ≠ PInf
  ∧ ProductPerformance.daysOfStockLeft
      (performanceOf (aggregate []) (Fin 0) (stock "a" 5 10))
    = PInf.
Proof.
  split; [|split; [num_compute|split; [discriminate|reflexivity]]].
  by_evaluation.
Qed.

(** With an empty window, a product with sales has a runway of zero
    whatever its stock. *)
Lemma zero_window_runway_general (m : gmap string ProductData.t)
    (item : StockItem.t) (q : Qc) :
  ProductData.quantity (dataOf m (StockItem.id item)) = Fin q → 0 < q →
  ProductPerformance.daysOfStockLeft (performanceOf m (Fin 0) item)
  = Fin 0.
Proof.
  unfold dataOf. intros Hq Hpos. unfold performanceOf. simpl.
  rewrite Hq.
  assert (Num.div (Fin q) (Fin 0) = PInf) as ->; [|done].
  simpl. apply Qcltb_true in Hpos as Hb. rewrite Hb.
  assert (Qcltb q 0 = false) as -> by (by apply Qcltb_false, Qclt_le_weak).
  done.
Qed.

(** ** The stable sort *)

Section sort_facts.
Context {A : Type} (cmp : A → A → num).

Lemma sort_cons (x : A) (l : list A) :
  sort cmp (x :: l) = sortInsert cmp x (sort cmp l).
Proof. reflexivity. Qed.

Lemma sortInsert_Permutation (x : A) (l : list A) :
  sortInsert cmp x l ≡ₚ x :: l.
Proof.
  induction l as [|y l IH]; cbn [sortInsert]; [reflexivity|].
  destruct (Num.gt (cmp x y) Num.zero); [|reflexivity].
  rewrite IH. apply perm_swap.
Qed.

Lemma sort_Permutation (l : list A) : sort cmp l ≡ₚ l.
Proof.
  induction l as [|x l IH]; [reflexivity|].
  by rewrite sort_cons, sortInsert_Permutation, IH.
Qed.

Lemma sort_length (l : list A) : length (sort cmp l) = length l.
Proof. by rewrite sort_Permutation. Qed.

Lemma sortInsert_ext (cmp' : A → A → num) (x : A) (l : list A) :
  (∀ y, y ∈ l → cmp x y = cmp' x y) →
  sortInsert cmp x l = sortInsert cmp' x l.
Proof.
  induction l as [|y l IH]; intros H; cbn [sortInsert]; [done|].
  rewrite <- (H y) by left.
  rewrite IH; [done|]. intros z Hz. apply H. by right.
Qed.

Lemma sort_ext (cmp' : A → A → num) (l : list A) :
  (∀ x y, x ∈ l → y ∈ l → cmp x y = cmp' x y) →
  sort cmp l = sort cmp' l.
Proof.
  induction l as [|x l IH]; intros H; [done|].
  rewrite (sort_cons x l). change (sort cmp' (x :: l))
    with (sortInsert cmp' x (sort cmp' l)).
  rewrite <- IH.
  - apply sortInsert_ext. intros y Hy. apply H; [left|right].
    by rewrite sort_Permutation in Hy.
  - intros y z Hy Hz. apply H; by right.
Qed.

End sort_facts.

Lemma StronglySorted_lookup {A : Type} (R : relation A) (l : list A)
    (i j : nat) (x y : A) :
  StronglySorted R l → l !! i = Some x → l !! j = Some y → (i < j)%nat →
  R x y.
Proof.
  intros Hl. revert i j. induction Hl as [|z l Hl IH Hz]; intros i j Hi Hj Hij.
  { done. }
  destruct i as [|i], j as [|j]; simpl in *; try lia.
  - injection Hi as ->. rewrite Forall_forall in Hz. apply Hz.
    by eapply list_elem_of_lookup_2.
  - apply (IH i j); [done..|lia].
Qed.

Lemma StronglySorted_lt_NoDup (l : list nat) :
  StronglySorted lt l → NoDup l.
Proof.
  induction 1 as [|x l Hl IH Hx]; constructor; [|done].
  intros Hin. rewrite Forall_forall in Hx. specialize (Hx x Hin). lia.
Qed.

(** ** Writing the ranks *)

Section rank_pass.
Context (set_rank : nat → ProductPerformance.t → ProductPerformance.t).

Let write (p i : nat) (h : heap) : heap := alter (set_rank (i + 1)%nat) p h.

Lemma forEach_from_length (k : nat) (s : list nat) (h : heap) :
  length (forEach_from write k s h) = length h.
Proof.
  revert k h. induction s as [|x s IH]; intros k h; cbn [forEach_from];
    [done|].
  rewrite IH. apply length_alter.
Qed.


End rank_pass.


Lemma rankPass_length (key : ProductPerformance.t → num)
    (set_rank : nat → ProductPerformance.t → ProductPerformance.t)
    (products : list nat) (h : heap) :
  length (rankPass key set_rank products h) = length h.
Proof. unfold rankPass, forEach. apply forEach_from_length. Qed.

Lemma addRankings_passes (products : list nat) (h : heap) :
  addRankings products h
  = rankPass ProductPerformance.stockEfficiency
      ProductPerformance.set_rankByEfficiency products
      (rankPass ProductPerformance.estimatedProfit
         ProductPerformance.set_rankByProfit products
         (rankPass ProductPerformance.totalRevenue
            ProductPerformance.set_rankByRevenue products h)).
Proof. reflexivity. Qed.

(** ** The active products *)

Lemma StronglySorted_filter {A : Type} (R : relation A) (f : A → bool)
    (l : list A) :
  StronglySorted R l → StronglySorted R (List.filter f l).
Proof.
  induction 1 as [|x l Hl IH Hx]; simpl; [constructor|].
  destruct (f x); [|done]. constructor; [done|].
  rewrite Forall_forall in *. intros y Hy. apply Hx.
  apply list_elem_of_In, filter_In in Hy as [Hy _]. by apply list_elem_of_In.
Qed.

Lemma StronglySorted_seq (j n : nat) : StronglySorted lt (seq j n).
Proof.
  revert j. induction n as [|n IH]; intros j; simpl; constructor; [done|].
  apply Forall_forall. intros y Hy%elem_of_seq. lia.
Qed.

Lemma active_elem (h : heap) (a : nat) :
  a ∈ active h ↔
  (a < length h)%nat
  ∧ Num.gt (ProductPerformance.unitsSold (h !!! a)) Num.zero = true.
Proof.
  unfold active. rewrite list_elem_of_In, filter_In, <- list_elem_of_In.
  rewrite elem_of_seq. intuition lia.
Qed.








(** ** The summary of an empty report *)

(** C9: when no stock item has [unitsSold > 0], the report has no product
    and its summary has [totalRevenue = 0], [totalProfit = 0],
    [averageMargin = 0] and no best product by revenue, profit or score. *)
Theorem empty_report_summary (entries : list DailyEntry.t)
    (stockItems : list StockItem.t) (daysToAnalyze : option Qc) :
  (∀ item, item ∈ stockItems →
     Num.gt (ProductPerformance.unitsSold
               (performanceOf (aggregate entries)
                  (daysOrDefault daysToAnalyze) item)) Num.zero = false) →
  let r := calculateProductPerformance entries stockItems daysToAnalyze in
  Report.products r = []
  ∧ Summary.totalRevenue (Report.summary r) = Num.zero
  ∧ Summary.totalProfit (Report.summary r) = Num.zero
  ∧ Summary.averageMargin (Report.summary r) = Num.zero
  ∧ Summary.bestByRevenue (Report.summary r) = None
  ∧ Summary.bestByProfit (Report.summary r) = None
  ∧ Summary.bestByScore (Report.summary r) = None
  ∧ Summary.totalProductsAnalyzed (Report.summary r) = 0%nat.
Proof.
  intros Hnone r.
  assert (active (allocated (aggregate entries) (daysOrDefault daysToAnalyze)
                    stockItems) = []) as Hactive.
  { apply elem_of_nil_inv. intros a [Ha Hs]%active_elem.
    unfold allocated in Ha, Hs. change (map ?f ?l) with (f <$> l) in Ha, Hs.
    rewrite length_fmap in Ha.
    destruct (lookup_lt_is_Some_2 stockItems a Ha) as [item Hitem].
    rewrite (list_lookup_total_correct _ a
               (performanceOf (aggregate entries)
                  (daysOrDefault daysToAnalyze) item)) in Hs.
    - rewrite Hnone in Hs; [done|]. by eapply list_elem_of_lookup_2.
    - by rewrite list_lookup_fmap, Hitem. }
  unfold r, calculateProductPerformance. rewrite Hactive.
  repeat split.
Qed.

Lemma empty_report_summary_witness :
  let r :=
    calculateProductPerformance [sale "a" 100 1] [stock "z" 5 0] None in
  Report.products r = []
  ∧ Summary.totalRevenue (Report.summary r) = Num.zero
  ∧ Summary.totalProfit (Report.summary r) = Num.zero
  ∧ Summary.averageMargin (Report.summary r) = Num.zero
  ∧ Summary.bestByRevenue (Report.summary r) = None
  ∧ Summary.bestByProfit (Report.summary r) = None
  ∧ Summary.bestByScore (Report.summary r) = None
  ∧ Summary.totalProductsAnalyzed (Report.summary r) = 0%nat.
Proof.
  apply (empty_report_summary [sale "a" 100 1] [stock "z" 5 0] None).
  intros item Hin. apply list_elem_of_singleton in Hin. subst item.
  reflexivity.
Defined.

(** * Further properties of the engine *)

(** ** The stock runway *)


(** ** The best products of the summary *)

Lemma reduce1_fmap {A B : Type} (g : A → B) (f : B → B → B)
    (f' : A → A → A) (l : list A) :
  (∀ a b, g (f' a b) = f (g a) (g b)) →
  g <$> reduce1 f' l = reduce1 f (g <$> l).
Proof.
  intros Hf. destruct l as [|x l]; [done|]. simpl. f_equal.
  revert x. induction l as [|y l IH]; intros x; simpl; [done|].
  by rewrite IH, Hf.
Qed.

Lemma reduce1_is_Some {A : Type} (f : A → A → A) (l : list A) :
  l ≠ [] → is_Some (reduce1 f l).
Proof. destruct l; [done|]. by eexists. Qed.

(** ** The map of aggregates *)

Lemma foldl_stepAt_is_Some (pid : string) (entries : list DailyEntry.t)
    (o : option ProductData.t) :
  is_Some (foldl (stepAt pid) o entries)
  ↔ is_Some o ∨ ∃ e, e ∈ entries ∧ bookedOn pid e = true.
Proof.
  revert o. induction entries as [|e entries IH]; intros o; simpl.
  { split; [by left|]. intros [?|(e & He & _)]; [done|].
    by apply elem_of_nil in He. }
  rewrite IH. clear IH.
  assert (is_Some (stepAt pid o e) ↔ is_Some o ∨ bookedOn pid e = true)
    as ->.
  { unfold stepAt, bookedOn. case_bool_decide; simpl.
    - destruct (String.eqb (DailyEntry.type e) "SALE"); simpl.
      { split; [by right|by eexists]. }
      destruct (String.eqb (DailyEntry.type e) "EXPENSE"
                || String.eqb (DailyEntry.type e) "STOCK_IN"); simpl.
      { split; [by right|by eexists]. }
      split; [by left|]. by intros [?|?].
    - split; [by left|]. by intros [?|?]. }
  split.
  - intros [[?|Hb]|(e' & He' & Hb)]; [by left| |].
    + right. exists e. split; [left|done].
    + right. exists e'. split; [by right|done].
  - intros [?|(e' & He' & Hb)]; [by left; left|].
    apply elem_of_cons in He' as [->|He']; [by left; right|].
    right. by exists e'.
Qed.

(** X10: a product id is a key of the map of aggregates exactly when some
    entry is booked on it, that is, carries this id and is a SALE, an
    EXPENSE or a STOCK_IN; the empty id is never a key, and an id without
    such an entry reads as the zero aggregate. *)
Theorem aggregate_keys (entries : list DailyEntry.t) (pid : string) :
  (is_Some (aggregate entries !! pid)
   ↔ ∃ e, e ∈ entries ∧ bookedOn pid e = true)
  ∧ aggregate entries !! "" = None
  ∧ (aggregate entries !! pid = None →
       dataOf (aggregate entries) pid = ProductData.zero).
Proof.
  split; [|split].
  - rewrite lookup_aggregate, foldl_stepAt_is_Some.
    split; [|by right]. intros [[? [=]]|?]; done.
  - apply eq_None_not_Some. rewrite lookup_aggregate, foldl_stepAt_is_Some.
    intros [[? [=]]|(e & _ & Hb)].
    unfold bookedOn in Hb. apply andb_prop in Hb as [Hb _].
    apply bool_decide_eq_true, truthy_id_Some in Hb as [_ Hb]. done.
  - unfold dataOf. by intros ->.
Qed.

(** ** The analysis window *)

Section without_runway.
Context {B : Type} (f : ProductPerformance.t → B).
Hypothesis f_runway : ∀ p, f (withoutRunway p) = f p.

Lemma lookup_total_withoutRunway (h : heap) (a : nat) :
  f ((withoutRunway <$> h) !!! a) = f (h !!! a).
Proof.
  rewrite !list_lookup_total_alt, list_lookup_fmap.
  destruct (h !! a); simpl; [apply f_runway|done].
Qed.
End without_runway.

Lemma forEach_from_withoutRunway
    (set_rank : nat → ProductPerformance.t → ProductPerformance.t)
    (k : nat) (s : list nat) (h : heap) :
  (∀ r p, withoutRunway (set_rank r p) = set_rank r (withoutRunway p)) →
  forEach_from (λ p i, alter (set_rank (i + 1)%nat) p) k s
               (withoutRunway <$> h)
  = withoutRunway
      <$> forEach_from (λ p i, alter (set_rank (i + 1)%nat) p) k s h.
Proof.
  intros Hset. revert k h.
  induction s as [|x s IH]; intros k h; cbn [forEach_from]; [done|].
  rewrite <- IH. f_equal. symmetry. apply list_fmap_alter.
  apply Forall_forall. intros p _. apply Hset.
Qed.

Lemma rankPass_withoutRunway (key : ProductPerformance.t → num)
    (set_rank : nat → ProductPerformance.t → ProductPerformance.t)
    (products : list nat) (h : heap) :
  (∀ p, key (withoutRunway p) = key p) →
  (∀ r p, withoutRunway (set_rank r p) = set_rank r (withoutRunway p)) →
  rankPass key set_rank products (withoutRunway <$> h)
  = withoutRunway <$> rankPass key set_rank products h.
Proof.
  intros Hkey Hset. unfold rankPass, forEach.
  rewrite <- forEach_from_withoutRunway by done. f_equal.
  apply sort_ext. intros a b _ _.
  by rewrite !(lookup_total_withoutRunway key Hkey).
Qed.

Lemma addRankings_withoutRunway (products : list nat) (h : heap) :
  addRankings products (withoutRunway <$> h)
  = withoutRunway <$> addRankings products h.
Proof.
  rewrite !addRankings_passes. by rewrite !rankPass_withoutRunway.
Qed.

Lemma active_withoutRunway (h : heap) :
  active (withoutRunway <$> h) = active h.
Proof.
  unfold active. rewrite length_fmap. apply filter_ext_in. intros a _.
  by rewrite (lookup_total_withoutRunway ProductPerformance.unitsSold).
Qed.

Lemma foldl_ext {A C : Type} (f g : A → C → A) (x : A) (l : list C) :
  (∀ a c, f a c = g a c) → foldl f x l = foldl g x l.
Proof.
  intros H. revert x. induction l as [|c l IH]; intros x; simpl; [done|].
  by rewrite H, IH.
Qed.

Lemma reduce1_ext {A : Type} (f g : A → A → A) (l : list A) :
  (∀ a b, f a b = g a b) → reduce1 f l = reduce1 g l.
Proof.
  intros H. destruct l as [|x l]; [done|]. simpl. f_equal.
  by apply foldl_ext.
Qed.

Lemma reduce1_elem {A : Type} (f : A → A → A) (l : list A) (b : A) :
  (∀ x y, f x y = x ∨ f x y = y) → reduce1 f l = Some b → b ∈ l.
Proof.
  intros Hf. destruct l as [|x l]; [done|]. simpl. intros [= <-].
  revert x. induction l as [|y l IH]; intros x; simpl; [left|].
  destruct (Hf x y) as [->| ->].
  - specialize (IH x). apply elem_of_cons in IH as [->|IH]; [left|].
    by right; right.
  - right. apply IH.
Qed.

Lemma active_in_range (h : heap) (a : nat) :
  a ∈ active h → (a < length h)%nat.
Proof. by intros [? _]%active_elem. Qed.

Lemma reportOf_withoutRunway (h : heap) :
  reportOf (withoutRunway <$> h) = reportWithoutRunway (reportOf h).
Proof.
  unfold reportOf, reportWithoutRunway.
  cbn [Report.products Report.summary].
  rewrite active_withoutRunway, addRankings_withoutRunway.
  set (l := active h). set (h' := addRankings l h).
  assert (∀ a, a ∈ l → (a < length h')%nat) as Hrange.
  { intros a Ha%active_in_range. unfold h'.
    rewrite addRankings_passes, !rankPass_length. done. }
  assert (∀ o : option nat, (∀ a, o = Some a → a ∈ l) →
            ((withoutRunway <$> h') !!!.) <$> o
            = withoutRunway <$> ((h' !!!.) <$> o)) as Hopt.
  { intros [a|] Ha; [|done]. simpl. f_equal.
    apply list_lookup_total_fmap, Hrange, Ha. done. }
  f_equal.
  - rewrite <- list_fmap_compose. apply list_fmap_ext.
    intros i a Ha. simpl. apply list_lookup_total_fmap, Hrange.
    by eapply list_elem_of_lookup_2.
  - unfold calculateSummary.
    cbn [Summary.totalRevenue Summary.totalProfit Summary.averageMargin
         Summary.bestByRevenue Summary.bestByProfit Summary.bestByScore
         Summary.totalProductsAnalyzed].
    rewrite (foldl_ext
      (λ sum p, Num.add sum (ProductPerformance.totalRevenue
                               ((withoutRunway <$> h') !!! p)))
      (λ sum p, Num.add sum (ProductPerformance.totalRevenue (h' !!! p))))
      by (intros; by rewrite
            (lookup_total_withoutRunway ProductPerformance.totalRevenue)).
    rewrite (foldl_ext
      (λ sum p, Num.add sum (ProductPerformance.estimatedProfit
                               ((withoutRunway <$> h') !!! p)))
      (λ sum p, Num.add sum (ProductPerformance.estimatedProfit (h' !!! p))))
      by (intros; by rewrite
            (lookup_total_withoutRunway ProductPerformance.estimatedProfit)).
    f_equal.
    + rewrite <- Hopt.
      * f_equal. apply reduce1_ext. intros a b.
        by rewrite !(lookup_total_withoutRunway
                       ProductPerformance.totalRevenue).
      * intros a Ha. apply reduce1_elem in Ha; [done|].
        intros x y. destruct (Num.gt _ _); auto.
    + rewrite <- Hopt.
      * f_equal. apply reduce1_ext. intros a b.
        by rewrite !(lookup_total_withoutRunway
                       ProductPerformance.estimatedProfit).
      * intros a Ha. apply reduce1_elem in Ha; [done|].
        intros x y. destruct (Num.gt _ _); auto.
    + rewrite <- Hopt.
      * f_equal. apply reduce1_ext. intros a b.
        by rewrite !(lookup_total_withoutRunway
                       ProductPerformance.performanceScore).
      * intros a Ha. apply reduce1_elem in Ha; [done|].
        intros x y. destruct (Num.gt _ _); auto.
Qed.

(** X11: the analysis window bears on the stock runway only: two runs of
    the engine on the same entries and stock items with different windows
    (one of them left out, zero or negative alike) return reports that agree
    on every product, every field, every rank and the whole summary, the
    field [daysOfStockLeft] aside. *)
Theorem window_changes_runway_only (entries : list DailyEntry.t)
    (stockItems : list StockItem.t) (days days' : option Qc) :
  reportWithoutRunway (calculateProductPerformance entries stockItems days)
  = reportWithoutRunway
      (calculateProductPerformance entries stockItems days').
Proof.
  change (calculateProductPerformance entries stockItems days)
    with (reportOf (allocated (aggregate entries) (daysOrDefault days)
                      stockItems)).
  change (calculateProductPerformance entries stockItems days')
    with (reportOf (allocated (aggregate entries) (daysOrDefault days')
                      stockItems)).
  rewrite <- !reportOf_withoutRunway. f_equal.
  unfold allocated. change (map ?f ?l) with (f <$> l).
  rewrite <- !list_fmap_compose. by apply list_fmap_ext.
Qed.

(** ** Categories and their display *)

Lemma categorizePerformance_range
    (realizedProfit projectedProfit realizationRate currentStock : num) :
  categorizePerformance realizedProfit projectedProfit realizationRate
                        currentStock ∈ lifecycleCategories.
Proof.
  unfold categorizePerformance, lifecycleCategories, completedCategories,
    inProgressCategories.
  repeat match goal with
         | |- context [if ?b then _ else _] => destruct b
         end;
    apply list_elem_of_In; simpl; tauto.
Qed.

(** X12: whatever its arguments, [categorizePerformance] returns one of ten
    names, each of which is a key of the display table: the display of a
    computed category is always that category's own entry, and it is the
    entry of UNKNOWN only for the category UNKNOWN.  Any other string that no
    plain object inherits as a property name is displayed as UNKNOWN. *)
Theorem computed_category_has_display
    (realizedProfit projectedProfit realizationRate currentStock : num) :
  let category :=
    categorizePerformance realizedProfit projectedProfit realizationRate
                          currentStock in
  category ∈ lifecycleCategories
  ∧ (∃ d, ownProperty category categories = Some d
          ∧ getPerformanceCategoryDisplay category = Entry d
          ∧ (getPerformanceCategoryDisplay category
             = getPerformanceCategoryDisplay "UNKNOWN"
             → category = "UNKNOWN"))
  ∧ ∀ other : string,
      ownProperty other categories = None →
      other ∉ objectPrototypeKeys →
      getPerformanceCategoryDisplay other
      = getPerformanceCategoryDisplay "UNKNOWN".
Proof.
  intros category.
  pose proof (categorizePerformance_range realizedProfit projectedProfit
                realizationRate currentStock) as Hin.
  fold category in Hin. split; [exact Hin|]. split.
  - unfold lifecycleCategories, completedCategories, inProgressCategories
      in Hin.
    apply list_elem_of_In in Hin. simpl in Hin.
    repeat destruct Hin as [<-|Hin];
      try (eexists; split; [reflexivity|]; split; [reflexivity|];
           first [done | vm_compute; discriminate]).
    done.
  - intros other Hown Hproto. unfold getPerformanceCategoryDisplay at 1.
    rewrite Hown. by rewrite bool_decide_eq_false_2.
Qed.

(** ** Storage *)

Section storage_facts.
Context (isValidDailyEntry isValidStockItem : value → bool)
        (JSON_parse : string → option value)
        (JSON_stringify : value → string)
        (hasRoom : gmap string string → string → string → bool)
        (canRemove : gmap string string → string → bool).

Let valid := isValidBusinessData isValidDailyEntry isValidStockItem.
Let load := loadData isValidDailyEntry isValidStockItem JSON_parse.
Let save :=
  saveData isValidDailyEntry isValidStockItem JSON_stringify hasRoom.
Let clear := clearData canRemove.

(** X15: [loadData] returns the stored value exactly when there is a
    window, the storage holds a non-empty text under the key of the
    application, the text parses and the parsed value passes
    [isValidBusinessData]; in every other case (no window, no item, an empty
    string, text that does not parse, a value of the wrong shape) it returns
    the default data.  Either way the result passes the validator. *)
Theorem loadData_returns_valid_data (w : World.t) :
  (∀ stored parsed,
     World.window w = true →
     World.localStorage w !! STORAGE_KEY = Some stored →
     stored ≠ "" →
     JSON_parse stored = Some parsed →
     valid parsed = true →
     load w = parsed)
  ∧ ((¬ ∃ stored parsed,
         World.window w = true
         ∧ World.localStorage w !! STORAGE_KEY = Some stored
         ∧ stored ≠ ""
         ∧ JSON_parse stored = Some parsed
         ∧ valid parsed = true) →
     load w = getDefaultData)
  ∧ valid (load w) = true.
Proof.
  unfold load, loadData. fold valid. split; [|split].
  - intros stored parsed -> -> Hne%String.eqb_neq -> Hv. simpl.
    by rewrite Hne, Hv.
  - intros Hno.
    destruct (World.window w) eqn:Hw; simpl; [|done].
    destruct (World.localStorage w !! STORAGE_KEY) as [stored|] eqn:Hs;
      [|done].
    destruct (String.eqb_spec stored "") as [|Hne]; [done|].
    destruct (JSON_parse stored) as [parsed|] eqn:Hp; [|done].
    destruct (valid parsed) eqn:Hv; simpl; [|done].
    destruct Hno. by exists stored, parsed.
  - destruct (World.window w); simpl; [|done].
    destruct (World.localStorage w !! STORAGE_KEY) as [stored|]; [|done].
    destruct (String.eqb stored ""); [done|].
    destruct (JSON_parse stored) as [parsed|]; [|done].
    by destruct (valid parsed) eqn:Hv.
Qed.

(** X16: [saveData] writes valid data only and touches nothing else: it
    answers [true] exactly when there is a window, the data passes
    [isValidBusinessData] and the storage has room, and then the storage
    holds the serialized data under the key of the application; when it
    answers [false] the browser is as before; no other key ever changes. *)
Theorem saveData_writes_valid_data_only (data : value) (w : World.t) :
  let ok := (save data w).1 in
  let w' := (save data w).2 in
  (ok = true ↔
     World.window w = true ∧ valid data = true
     ∧ hasRoom (World.localStorage w) STORAGE_KEY (JSON_stringify data)
       = true)
  ∧ (ok = true →
       World.localStorage w' !! STORAGE_KEY = Some (JSON_stringify data))
  ∧ (ok = false → w' = w)
  ∧ World.window w' = World.window w
  ∧ ∀ k, k ≠ STORAGE_KEY →
      World.localStorage w' !! k = World.localStorage w !! k.
Proof.
  unfold save, saveData. fold valid.
  destruct (World.window w) eqn:Hw; simpl.
  2:{ repeat split; try done. by intros (? & _). }
  destruct (valid data) eqn:Hv; simpl.
  2:{ repeat split; try done. by intros (_ & ? & _). }
  destruct (hasRoom _ _ _) eqn:Hr; simpl.
  - repeat split; try done.
    + by rewrite lookup_insert_eq.
    + intros k Hk. by rewrite lookup_insert_ne.
  - repeat split; try done. by intros (_ & _ & ?).
Qed.

(** X17: what was saved is what is loaded: after a successful [saveData],
    [loadData] returns the value the saved text parses to, provided that
    this value passes the validator, and the default data if the text does
    not parse back or parses to invalid data. *)
Theorem saveData_then_loadData (data : value) (w : World.t) :
  (save data w).1 = true →
  JSON_stringify data ≠ "" →
  load (save data w).2
  = match JSON_parse (JSON_stringify data) with
    | Some data' => if valid data' then data' else getDefaultData
    | None => getDefaultData
    end.
Proof.
  unfold save, saveData, load, loadData. fold valid.
  destruct (World.window w) eqn:Hw; simpl; [|done].
  destruct (valid data); simpl; [|done].
  destruct (hasRoom _ _ _); simpl; [|done].
  intros _ Hne. rewrite lookup_insert_eq.
  apply String.eqb_neq in Hne. rewrite Hne.
  destruct (JSON_parse _) as [data'|]; [|done].
  by destruct (valid data').
Qed.

(** X18: [clearData] answers [true] exactly when there is a window and
    [removeItem] does not throw; then the key of the application is gone
    from the storage and [loadData] returns the default data.  When it
    answers [false] the browser is as before; no other key ever changes. *)
Theorem clearData_then_loadData (w : World.t) :
  let ok := (clear w).1 in
  let w' := (clear w).2 in
  (ok = true ↔
     World.window w = true
     ∧ canRemove (World.localStorage w) STORAGE_KEY = true)
  ∧ (ok = true →
       World.localStorage w' !! STORAGE_KEY = None
       ∧ load w' = getDefaultData)
  ∧ (ok = false → w' = w)
  ∧ World.window w' = World.window w
  ∧ ∀ k, k ≠ STORAGE_KEY →
      World.localStorage w' !! k = World.localStorage w !! k.
Proof.
  unfold clear, clearData, load, loadData.
  destruct (World.window w) eqn:Hw; simpl.
  2:{ repeat split; try done. by intros (? & _). }
  destruct (canRemove _ _) eqn:Hr; simpl.
  - rewrite lookup_delete_eq. repeat split; try done.
    intros k Hk. by rewrite lookup_delete_ne.
  - repeat split; try done. by intros (_ & ?).
Qed.
End storage_facts.

(** ** The product table *)

(** X19: a click on the header of the column the table is sorted on flips
    the direction, so that two such clicks restore the state; a click on
    another column sorts on it, descending; a click never touches the
    search term. *)
Theorem handleSort_clicks (field : string) (st : TableState.t) :
  TableState.sortField (handleSort field st) = field
  ∧ TableState.searchTerm (handleSort field st) = TableState.searchTerm st
  ∧ (field ≠ TableState.sortField st →
       TableState.sortDirection (handleSort field st) = desc)
  ∧ (field = TableState.sortField st →
       TableState.sortDirection (handleSort field st)
       ≠ TableState.sortDirection st
       ∧ handleSort field (handleSort field st) = st).
Proof.
  unfold handleSort.
  destruct (String.eqb_spec field (TableState.sortField st)) as [->|Hne].
  - cbn [TableState.sortField]. rewrite String.eqb_refl.
    destruct st as [f [] t]; simpl; repeat split; try done.
  - simpl. repeat split; try done.
Qed.

Section table_facts.
Context (toLowerCase : string → string) (includes : string → string → bool)
        (localeCompare : string → string → num).

Let view := filteredAndSortedProducts toLowerCase includes localeCompare.

(** X20: the table shows every product it is given, each once, as long as
    no search term is entered (in its initial state in particular), and
    with a search term a selection of them, whatever the column and the
    direction. *)
Theorem table_rows (st : TableState.t)
    (products : list ProductPerformance.t) :
  (TableState.searchTerm st = "" → view st products ≡ₚ products)
  ∧ view TableState.initial products ≡ₚ products
  ∧ (∀ p, p ∈ view st products → p ∈ products)
  ∧ (length (view st products) ≤ length products)%nat.
Proof.
  unfold view, filteredAndSortedProducts.
  split; [|split; [|split]].
  - intros ->. simpl. apply sort_Permutation.
  - simpl. apply sort_Permutation.
  - intros p Hp. rewrite sort_Permutation in Hp.
    destruct (negb _); [|done].
    apply list_elem_of_In, filter_In in Hp as [Hp _].
    by apply list_elem_of_In.
  - rewrite sort_length. destruct (negb _); [|done]. apply filter_length_le.
Qed.
End table_facts.

(** ** The entry form *)

Lemma orZero_not_NaN (x : num) : orZero x ≠ NaN.
Proof. unfold orZero. by destruct x; simpl; try destruct (negb _). Qed.

Lemma not_lt_zero_nonNegative (x : num) :
  x ≠ NaN → Num.lt x Num.zero = false → nonNegative x.
Proof.
  unfold nonNegative. destruct x as [q| | |]; simpl; try done; auto.
  intros _ Hq%Qcltb_false.
  destruct (Qcle_lt_or_eq _ _ Hq) as [Hlt|Heq].
  - left. by apply Qcltb_true.
  - right. by rewrite <- Heq.
Qed.

Section form_facts.
Context (parseFloat : string → num).

(** X21: the form hands an entry to [onSave] exactly when it leaves no
    error message, and only an entry with a date and with two amounts that
    are non-negative numbers, never [NaN], and not both zero; an amount
    that does not parse counts as zero. *)
Theorem handleSubmit_saves_sound_entries (date sales expenses : string) :
  let result := handleSubmit parseFloat date sales expenses in
  (result.1 = "" ↔ is_Some result.2)
  ∧ (∀ e, result.2 = Some e →
       FormEntry.date e = date ∧ date ≠ ""
       ∧ FormEntry.sales e = orZero (parseFloat sales)
       ∧ FormEntry.expenses e = orZero (parseFloat expenses)
       ∧ nonNegative (FormEntry.sales e)
       ∧ nonNegative (FormEntry.expenses e)
       ∧ ¬ (FormEntry.sales e = Num.zero ∧ FormEntry.expenses e = Num.zero))
  ∧ (parseFloat sales = NaN → parseFloat expenses = NaN → result.2 = None).
Proof.
  unfold handleSubmit.
  set (s := orZero (parseFloat sales)).
  set (x := orZero (parseFloat expenses)).
  destruct (String.eqb_spec date "") as [->|Hdate].
  { simpl. split; [split; [done|by intros [? ?]]|]. by split. }
  destruct (Num.lt s Num.zero) eqn:Hs; simpl.
  { split; [split; [done|by intros [? ?]]|]. by split. }
  destruct (Num.lt x Num.zero) eqn:Hx; simpl.
  { split; [split; [done|by intros [? ?]]|]. by split. }
  destruct (Num.eq s Num.zero && Num.eq x Num.zero) eqn:Hz; simpl.
  { split; [split; [done|by intros [? ?]]|]. by split. }
  split; [split; [by eexists|done]|]. split.
  - intros e [= <-]. simpl. repeat split; try done.
    + apply not_lt_zero_nonNegative; [apply orZero_not_NaN|done].
    + apply not_lt_zero_nonNegative; [apply orZero_not_NaN|done].
    + intros [Es Ex]. rewrite Es, Ex in Hz. vm_compute in Hz. done.
  - intros Hs' Hx'. subst s x. rewrite Hs', Hx' in Hz.
    vm_compute in Hz. done.
Qed.
End form_facts.

Lemma saveData_then_loadData_witness :
  let parse (_ : string) := Some getDefaultData in
  let stringify (_ : value) := "{}" in
  let w := World.mk true ∅ in
  loadData (λ _, true) (λ _, true) parse
    (saveData (λ _, true) (λ _, true) stringify (λ _ _ _, true)
              getDefaultData w).2
  = getDefaultData.
Proof.
  intros parse stringify w.
  rewrite (saveData_then_loadData (λ _, true) (λ _, true) parse stringify
             (λ _ _ _, true) getDefaultData w); [reflexivity..|discriminate].
Defined.

(** ** The score as a function of the metrics *)












(** * IEEE 754 doubles *)

Section float_facts.
Local Open Scope float_scope.

Lemma digits2_pos_bounds (m : positive) :
  (2 ^ (Zpos (digits2_pos m) - 1) ≤ Zpos m < 2 ^ Zpos (digits2_pos m))%Z.
Proof.
  induction m as [m IH|m IH|]; cbn [digits2_pos].
  - rewrite Pos2Z.inj_succ, Z.pow_succ_r by lia.
    replace (Z.succ (Zpos (digits2_pos m)) - 1)%Z
      with (Z.succ (Zpos (digits2_pos m) - 1)) by lia.
    rewrite Z.pow_succ_r by lia. lia.
  - rewrite Pos2Z.inj_succ, Z.pow_succ_r by lia.
    replace (Z.succ (Zpos (digits2_pos m)) - 1)%Z
      with (Z.succ (Zpos (digits2_pos m) - 1)) by lia.
    rewrite Z.pow_succ_r by lia. lia.
  - simpl. lia.
Qed.

Lemma valid_finite (s : bool) (m : positive) (e : Z) :
  valid_binary (S754_finite s m e) = true →
  (-1074 ≤ e ≤ 971)%Z
  ∧ (Zpos (digits2_pos m) ≤ 53)%Z
  ∧ (e = -1074 ∨ Zpos (digits2_pos m) = 53)%Z.
Proof.
  unfold SpecFloat.valid_binary, bounded, canonical_mantissa, fexp,
    SpecFloat.emin, prec, emax.
  intros [H1 H2]%andb_true_iff.
  apply Z.eqb_eq in H1. apply Z.leb_le in H2. lia.
Qed.

Lemma scaled_pos (m : positive) (e : Z) :
  (-1074 ≤ e)%Z → (0 < Zpos m * 2 ^ (e + 1074))%Z.
Proof.
  intros H. pose proof (Z.pow_pos_nonneg 2 (e + 1074) ltac:(lia) ltac:(lia)).
  lia.
Qed.

Lemma scaled_lt (s1 s2 : bool) (m1 m2 : positive) (e1 e2 : Z) :
  valid_binary (S754_finite s1 m1 e1) = true →
  valid_binary (S754_finite s2 m2 e2) = true →
  (e1 < e2)%Z →
  (Zpos m1 * 2 ^ (e1 + 1074) < Zpos m2 * 2 ^ (e2 + 1074))%Z.
Proof.
  intros (He1 & Hd1 & _)%valid_finite (He2 & _ & Hd2)%valid_finite Hlt.
  destruct Hd2 as [Hd2|Hd2]; [lia|].
  pose proof (digits2_pos_bounds m1) as [_ Hm1].
  pose proof (digits2_pos_bounds m2) as [Hm2 _].
  rewrite Hd2 in Hm2.
  assert (2 ^ Zpos (digits2_pos m1) ≤ 2 ^ 53)%Z as Hp
    by (apply Z.pow_le_mono_r; lia).
  replace (e2 + 1074)%Z with ((e1 + 1074) + (e2 - e1))%Z by lia.
  rewrite (Z.pow_add_r 2 (e1 + 1074) (e2 - e1)) by lia.
  assert (2 ≤ 2 ^ (e2 - e1))%Z as Hb.
  { change 2%Z with (2 ^ 1)%Z at 1. apply Z.pow_le_mono_r; lia. }
  pose proof (Z.pow_pos_nonneg 2 (e1 + 1074) ltac:(lia) ltac:(lia)) as Ha.
  change (2 ^ (53 - 1))%Z with 4503599627370496%Z in Hm2.
  change (2 ^ 53)%Z with 9007199254740992%Z in Hp.
  set (a := (2 ^ (e1 + 1074))%Z) in *. set (b := (2 ^ (e2 - e1))%Z) in *.
  clearbody a b.
  assert (Zpos m1 < 2 * Zpos m2)%Z as H1 by lia.
  apply Z.lt_le_trans with (2 * Zpos m2 * a)%Z.
  - apply Z.mul_lt_mono_pos_r; lia.
  - replace (Zpos m2 * (a * b))%Z with (b * (Zpos m2 * a))%Z by ring.
    replace (2 * Zpos m2 * a)%Z with (2 * (Zpos m2 * a))%Z by ring.
    apply Z.mul_le_mono_nonneg_r; lia.
Qed.

Lemma scaled_lt_infinity (s : bool) (m : positive) (e : Z) :
  valid_binary (S754_finite s m e) = true →
  (Zpos m * 2 ^ (e + 1074) < 2 ^ 2100)%Z.
Proof.
  intros (He & Hd & _)%valid_finite.
  pose proof (digits2_pos_bounds m) as [_ Hm].
  assert (2 ^ Zpos (digits2_pos m) ≤ 2 ^ 53)%Z as Hp
    by (apply Z.pow_le_mono_r; lia).
  assert (2 ^ (e + 1074) ≤ 2 ^ 2045)%Z as He'
    by (apply Z.pow_le_mono_r; lia).
  pose proof (Z.pow_pos_nonneg 2 (e + 1074) ltac:(lia) ltac:(lia)) as Ha.
  replace 2100%Z with (53 + 2045 + 2)%Z by lia.
  rewrite (Z.pow_add_r 2 (53 + 2045) 2), (Z.pow_add_r 2 53 2045) by lia.
  set (a := (2 ^ 53)%Z) in *. set (b := (2 ^ 2045)%Z) in *.
  set (c := (2 ^ (e + 1074))%Z) in *.
  assert (0 < a)%Z by (subst a; lia).
  assert (0 < b)%Z by (subst b; apply Z.pow_pos_nonneg; lia).
  clearbody a b c. change (2 ^ 2)%Z with 4%Z.
  apply Z.lt_le_trans with (a * c)%Z.
  - apply Z.mul_lt_mono_pos_r; lia.
  - apply Z.le_trans with (a * b)%Z.
    + apply Z.mul_le_mono_nonneg_l; lia.
    + assert (0 < a * b)%Z by (apply Z.mul_pos_pos; lia). lia.
Qed.

Lemma compare_cont_Eq (m1 m2 : positive) :
  Pos.compare_cont Eq m1 m2 = (Zpos m1 ?= Zpos m2)%Z.
Proof. reflexivity. Qed.

Lemma SFcompare_ord (x y : spec_float) :
  valid_binary x = true → valid_binary y = true →
  x ≠ S754_nan → y ≠ S754_nan →
  SFcompare x y = Some (ord x ?= ord y)%Z.
Proof.
  assert (0 < 2 ^ 2100)%Z as HB by (by apply Z.pow_pos_nonneg).
  intros Hx Hy Hnx Hny.
  destruct x as [sx|sx| |sx mx ex], y as [sy|sy| |sy my ey];
    try done; cbn [SFcompare ord].
  - (* zero, infinity *)
    f_equal. destruct sy; cbn [cond_Zopp]; symmetry;
      [apply Z.compare_gt_iff|apply Z.compare_lt_iff]; lia.
  - pose proof (scaled_pos my ey) as H.
    apply valid_finite in Hy as (He & _). specialize (H ltac:(lia)).
    f_equal. destruct sy; cbn [cond_Zopp]; symmetry;
      [apply Z.compare_gt_iff|apply Z.compare_lt_iff]; lia.
  - f_equal. destruct sx; cbn [cond_Zopp]; symmetry;
      [apply Z.compare_lt_iff|apply Z.compare_gt_iff]; lia.
  - f_equal. destruct sx, sy; cbn [cond_Zopp]; symmetry;
      [apply Z.compare_eq_iff|apply Z.compare_lt_iff
      |apply Z.compare_gt_iff|apply Z.compare_eq_iff]; lia.
  - pose proof (scaled_lt_infinity sy my ey Hy) as H.
    pose proof (scaled_pos my ey) as H'.
    apply valid_finite in Hy as (He & _). specialize (H' ltac:(lia)).
    f_equal. destruct sx, sy; cbn [cond_Zopp]; symmetry;
      [apply Z.compare_lt_iff|apply Z.compare_lt_iff
      |apply Z.compare_gt_iff|apply Z.compare_gt_iff]; lia.
  - pose proof (scaled_pos mx ex) as H.
    apply valid_finite in Hx as (He & _). specialize (H ltac:(lia)).
    f_equal. destruct sx; cbn [cond_Zopp]; symmetry;
      [apply Z.compare_lt_iff|apply Z.compare_gt_iff]; lia.
  - pose proof (scaled_lt_infinity sx mx ex Hx) as H.
    pose proof (scaled_pos mx ex) as H'.
    apply valid_finite in Hx as (He & _). specialize (H' ltac:(lia)).
    f_equal. destruct sx, sy; cbn [cond_Zopp]; symmetry;
      [apply Z.compare_gt_iff|apply Z.compare_lt_iff
      |apply Z.compare_gt_iff|apply Z.compare_lt_iff]; lia.
  - pose proof (scaled_pos mx ex) as Hpx.
    pose proof (scaled_pos my ey) as Hpy.
    pose proof (valid_finite _ _ _ Hx) as (Hex & _).
    pose proof (valid_finite _ _ _ Hy) as (Hey & _).
    specialize (Hpx ltac:(lia)). specialize (Hpy ltac:(lia)).
    f_equal.
    assert ((ex ?= ey)%Z = Lt →
            (Zpos mx * 2 ^ (ex + 1074) < Zpos my * 2 ^ (ey + 1074))%Z) as HLt.
    { intros E. apply Z.compare_lt_iff in E. by eapply scaled_lt. }
    assert ((ex ?= ey)%Z = Gt →
            (Zpos my * 2 ^ (ey + 1074) < Zpos mx * 2 ^ (ex + 1074))%Z) as HGt.
    { intros E. apply Z.compare_gt_iff in E. by eapply scaled_lt. }
    assert ((ex ?= ey)%Z = Eq →
            (Zpos mx * 2 ^ (ex + 1074) ?= Zpos my * 2 ^ (ey + 1074))%Z
            = (Zpos mx ?= Zpos my)%Z) as HEq.
    { intros E. apply Z.compare_eq_iff in E. subst ey.
      symmetry. apply Zmult_compare_compat_r.
      apply Z.lt_gt, Z.pow_pos_nonneg; lia. }
    rewrite compare_cont_Eq.
    destruct sx, sy; cbn [cond_Zopp].
    + rewrite Z.compare_opp.
      destruct (ex ?= ey)%Z eqn:E.
      * rewrite <- (HEq eq_refl). symmetry. apply Z.compare_antisym.
      * symmetry. apply Z.compare_gt_iff. by apply HLt.
      * symmetry. apply Z.compare_lt_iff. by apply HGt.
    + symmetry. apply Z.compare_lt_iff. lia.
    + symmetry. apply Z.compare_gt_iff. lia.
    + destruct (ex ?= ey)%Z eqn:E.
      * by rewrite (HEq eq_refl).
      * symmetry. apply Z.compare_lt_iff. by apply HLt.
      * symmetry. apply Z.compare_gt_iff. by apply HGt.
Qed.

(** ** Rounding never turns a non-zero multiple of the least exponent
    into zero *)

Lemma shr_1_m (mrs : shr_record) :
  (0 ≤ shr_m mrs)%Z → shr_m (shr_1 mrs) = (shr_m mrs / 2)%Z.
Proof.
  destruct mrs as [m r s]. cbn [shr_m shr_1]. intros Hm.
  destruct m as [|[p|p|]|p]; cbn [shr_m]; try lia.
  - reflexivity.
  - apply (Z.div_unique _ _ _ 1); lia.
  - apply (Z.div_unique _ _ _ 0); lia.
  - reflexivity.
Qed.

Lemma iter_shr_lower (p : positive) (mrs : shr_record) (j : Z) :
  (0 ≤ j)%Z → (2 ^ (Zpos p + j) ≤ shr_m mrs)%Z →
  (2 ^ j ≤ shr_m (SpecFloat.iter_pos shr_1 p mrs))%Z.
Proof.
  assert (∀ mrs j, (0 ≤ j)%Z → (2 ^ (1 + j) ≤ shr_m mrs)%Z →
            (2 ^ j ≤ shr_m (shr_1 mrs))%Z) as Hone.
  { intros mrs' j' Hj Hm.
    pose proof (Z.pow_pos_nonneg 2 j' ltac:(lia) Hj) as Hp.
    rewrite Z.pow_add_r in Hm by lia. change (2 ^ 1)%Z with 2%Z in Hm.
    rewrite shr_1_m by lia. apply Z.div_le_lower_bound; lia. }
  revert mrs j. induction p as [p IH|p IH|]; intros mrs j Hj Hm;
    cbn [SpecFloat.iter_pos].
  - apply IH; [done|]. apply IH; [lia|]. apply Hone; [lia|].
    replace (1 + (Zpos p + (Zpos p + j)))%Z with (Zpos p~1 + j)%Z by lia.
    done.
  - apply IH; [done|]. apply IH; [lia|].
    replace (Zpos p + (Zpos p + j))%Z with (Zpos p~0 + j)%Z by lia.
    done.
  - by apply Hone.
Qed.

Lemma shr_m_of_loc (m : Z) (l : location) :
  shr_m (shr_record_of_loc m l) = m.
Proof. by destruct l as [|[]]. Qed.

Lemma shr_fexp_pos (m e : Z) (l : location) :
  (0 < m)%Z → (-1074 ≤ e)%Z →
  (0 < shr_m (shr_fexp prec emax m e l).1)%Z
  ∧ (-1074 ≤ (shr_fexp prec emax m e l).2)%Z.
Proof.
  intros Hm He. unfold shr_fexp, shr, fexp, SpecFloat.emin, prec, emax.
  destruct m as [|p|p]; try lia. cbn [Zdigits2].
  pose proof (digits2_pos_bounds p) as [Hd _].
  destruct (Z.max (Zpos (digits2_pos p) + e - 53) (3 - 1024 - 53) - e)%Z
    as [|n|n] eqn:Hn; cbn [fst snd].
  - rewrite shr_m_of_loc. lia.
  - split; [|lia].
    assert (2 ^ 52 ≤ shr_m (SpecFloat.iter_pos shr_1 n (shr_record_of_loc (Zpos p) l)))%Z
      as H; [|lia].
    apply iter_shr_lower; [lia|]. rewrite shr_m_of_loc.
    replace (Zpos n + 52)%Z with (Zpos (digits2_pos p) - 1)%Z by lia.
    done.
  - rewrite shr_m_of_loc. lia.
Qed.

Lemma round_nearest_even_ge (mx : Z) (lx : location) :
  (mx ≤ round_nearest_even mx lx)%Z.
Proof.
  destruct lx as [|[]]; cbn [round_nearest_even]; try lia.
  destruct (Z.even mx); lia.
Qed.

Lemma binary_round_aux_signed (s : bool) (m e : Z) (l : location) :
  (0 < m)%Z → (-1074 ≤ e)%Z →
  signed s (binary_round_aux prec emax s m e l).
Proof.
  intros Hm He. unfold binary_round_aux.
  pose proof (shr_fexp_pos m e l Hm He) as [H1 H2].
  destruct (shr_fexp prec emax m e l) as [mrs' e'].
  cbn [fst snd] in H1, H2.
  pose proof (round_nearest_even_ge (shr_m mrs') (loc_of_shr_record mrs'))
    as Hr.
  pose proof (shr_fexp_pos (round_nearest_even (shr_m mrs')
                              (loc_of_shr_record mrs')) e' loc_Exact
                ltac:(lia) H2) as [H3 _].
  destruct (shr_fexp prec emax _ e' loc_Exact) as [mrs'' e''].
  cbn [fst] in H3. destruct (shr_m mrs'') as [|p|p]; try lia.
  by destruct (e'' <=? emax - prec)%Z.
Qed.

Lemma binary_round_signed (s : bool) (m : positive) (e : Z) :
  (-1074 ≤ e)%Z → signed s (binary_round prec emax s m e).
Proof.
  intros He. unfold binary_round.
  destruct (shl_align m e (fexp prec emax (Zpos (digits2_pos m) + e)))
    as [mz ez] eqn:E.
  apply binary_round_aux_signed; [done|].
  unfold shl_align, fexp, SpecFloat.emin, prec, emax in E.
  destruct (Z.max (Zpos (digits2_pos m) + e - 53) (3 - 1024 - 53) - e)%Z;
    injection E as <- <-; lia.
Qed.

Lemma Pos_iter_xO (m d : positive) :
  Zpos (Pos.iter xO m d) = (Zpos m * 2 ^ Zpos d)%Z.
Proof.
  induction d as [|d IH] using Pos.peano_ind.
  - cbn [Pos.iter]. lia.
  - rewrite Pos.iter_succ, Pos2Z.inj_succ, Z.pow_succ_r by lia.
    rewrite Pos2Z.inj_xO, IH. ring.
Qed.

Lemma shl_align_value (m : positive) (e e' : Z) :
  (e' ≤ e)%Z →
  Zpos (shl_align m e e').1 = (Zpos m * 2 ^ (e - e'))%Z.
Proof.
  intros H. unfold shl_align.
  destruct (e' - e)%Z as [|d|d] eqn:E; cbn [fst]; try lia.
  - replace (e - e')%Z with 0%Z by lia. lia.
  - rewrite Pos_iter_xO. f_equal. f_equal. lia.
Qed.

Lemma cond_Zopp_mul (s : bool) (a b : Z) :
  (cond_Zopp s a * b)%Z = cond_Zopp s (a * b).
Proof. destruct s; cbn [cond_Zopp]; lia. Qed.

(** The aligned mantissa of a valid float is its integer value, up to the
    common scale. *)
Lemma aligned_ord (s : bool) (m : positive) (e ez : Z) :
  (-1074 ≤ ez ≤ e)%Z →
  (cond_Zopp s (Zpos (shl_align m e ez).1) * 2 ^ (ez + 1074))%Z
  = ord (S754_finite s m e).
Proof.
  intros H. cbn [ord]. rewrite cond_Zopp_mul. f_equal.
  rewrite shl_align_value by lia.
  rewrite <- Z.mul_assoc, <- Z.pow_add_r by lia. f_equal. f_equal. lia.
Qed.

Lemma SFltb_zero_signed (s : bool) (x : spec_float) :
  signed s x → SFltb (S754_zero false) x = negb s.
Proof. destruct x as [| | |s' m e]; try done; by intros ->; destruct s. Qed.

Lemma SFsub_gt_zero (x y : spec_float) :
  valid_binary x = true → valid_binary y = true →
  SFltb (S754_zero false) (SF64sub x y) = SFltb y x.
Proof.
  intros Hx Hy.
  destruct x as [sx|sx| |sx mx ex], y as [sy|sy| |sy my ey];
    try reflexivity;
    try (by destruct sx, sy); try (by destruct sx); try (by destruct sy).
  unfold SFltb at 2. rewrite (SFcompare_ord _ _ Hy Hx) by done.
  pose proof (valid_finite _ _ _ Hx) as (Hex & _).
  pose proof (valid_finite _ _ _ Hy) as (Hey & _).
  unfold SF64sub, SFsub.
  set (ez := Z.min ex ey).
  pose proof (aligned_ord sx mx ex ez ltac:(lia)) as Hox.
  pose proof (aligned_ord sy my ey ez ltac:(lia)) as Hoy.
  set (M := (cond_Zopp sx (Zpos (shl_align mx ex ez).1)
             - cond_Zopp sy (Zpos (shl_align my ey ez).1))%Z) in *.
  assert (ord (S754_finite sx mx ex) - ord (S754_finite sy my ey)
          = M * 2 ^ (ez + 1074))%Z as HM.
  { rewrite <- Hox, <- Hoy. unfold M. ring. }
  pose proof (Z.pow_pos_nonneg 2 (ez + 1074) ltac:(lia) ltac:(lia)) as Hp.
  set (ox := ord (S754_finite sx mx ex)) in *.
  set (oy := ord (S754_finite sy my ey)) in *.
  clearbody ox oy.
  destruct M as [|p|p] eqn:EM; cbn [binary_normalize].
  - assert ((oy ?= ox)%Z = Eq) as -> by (apply Z.compare_eq_iff; lia).
    reflexivity.
  - rewrite (SFltb_zero_signed false)
      by (apply binary_round_signed; lia).
    assert ((oy ?= ox)%Z = Lt) as ->; [|done].
    apply Z.compare_lt_iff. nia.
  - rewrite (SFltb_zero_signed true)
      by (apply binary_round_signed; lia).
    assert ((oy ?= ox)%Z = Gt) as ->; [|done].
    apply Z.compare_gt_iff. nia.
Qed.

(** ** The order of the doubles *)

Lemma is_nan_Prim2SF (x : float) :
  is_nan x = true ↔ Prim2SF x = S754_nan.
Proof.
  unfold is_nan. rewrite FloatAxioms.eqb_spec, negb_true_iff. unfold SFeqb.
  pose proof (Prim2SF_valid x) as Hv.
  destruct (Prim2SF x) as [s|s| |s m e] eqn:E; try done.
  - split; [|done]. by destruct s.
  - rewrite (SFcompare_ord _ _ Hv Hv) by done.
    by rewrite Z.compare_refl.
Qed.

Lemma is_nan_false (x : float) :
  is_nan x = false ↔ Prim2SF x ≠ S754_nan.
Proof.
  split.
  - intros H E%is_nan_Prim2SF. congruence.
  - intros H. destruct (is_nan x) eqn:E; [|done].
    by apply is_nan_Prim2SF in E.
Qed.

Lemma compare_ford (x y : float) :
  is_nan x = false → is_nan y = false →
  SFcompare (Prim2SF x) (Prim2SF y) = Some (ford x ?= ford y)%Z.
Proof.
  intros Hx%is_nan_false Hy%is_nan_false.
  apply SFcompare_ord; [apply Prim2SF_valid..|done|done].
Qed.

Lemma ltb_ford (x y : float) :
  is_nan x = false → is_nan y = false →
  PrimFloat.ltb x y = (ford x <? ford y)%Z.
Proof.
  intros Hx Hy. rewrite FloatAxioms.ltb_spec. unfold SFltb.
  rewrite (compare_ford x y Hx Hy). unfold Z.ltb.
  by destruct (ford x ?= ford y)%Z.
Qed.

Lemma eqb_ford (x y : float) :
  is_nan x = false → is_nan y = false →
  PrimFloat.eqb x y = (ford x =? ford y)%Z.
Proof.
  intros Hx Hy. rewrite FloatAxioms.eqb_spec. unfold SFeqb.
  rewrite (compare_ford x y Hx Hy), Z.eqb_compare.
  by destruct (ford x ?= ford y)%Z.
Qed.

Lemma ltb_nan_l (x y : float) : is_nan x = true → PrimFloat.ltb x y = false.
Proof. intros H%is_nan_Prim2SF. rewrite FloatAxioms.ltb_spec, H. done. Qed.

Lemma ltb_nan_r (x y : float) : is_nan y = true → PrimFloat.ltb x y = false.
Proof.
  intros H%is_nan_Prim2SF. rewrite FloatAxioms.ltb_spec, H.
  by destruct (Prim2SF x).
Qed.

Lemma eqb_nan_l (x y : float) : is_nan x = true → PrimFloat.eqb x y = false.
Proof. intros H%is_nan_Prim2SF. rewrite FloatAxioms.eqb_spec, H. done. Qed.

Lemma eqb_nan_r (x y : float) : is_nan y = true → PrimFloat.eqb x y = false.
Proof.
  intros H%is_nan_Prim2SF. rewrite FloatAxioms.eqb_spec, H.
  by destruct (Prim2SF x).
Qed.

(** The sign of a difference is the order of its operands, for all
    doubles: a difference of equal infinities and a difference with [NaN]
    are [NaN], which is not positive. *)
Lemma sub_gt_zero (x y : float) :
  PrimFloat.ltb 0 (x - y) = PrimFloat.ltb y x.
Proof.
  rewrite !FloatAxioms.ltb_spec, FloatAxioms.sub_spec.
  change (Prim2SF 0) with (S754_zero false).
  apply SFsub_gt_zero; apply Prim2SF_valid.
Qed.

Lemma ford_zero : ford 0 = 0%Z.
Proof. reflexivity. Qed.

Lemma is_nan_zero : is_nan 0 = false.
Proof. reflexivity. Qed.
End float_facts.

(** * Properties of the engine on doubles *)

(** ** The aggregation loop *)

Section ieee_aggregate.
Import IEEE.
Local Open Scope float_scope.

Lemma float_neq (x y : float) : PrimFloat.Leibniz.eqb x y = false → x ≠ y.
Proof.
  intros H E. apply FloatAxioms.Leibniz.eqb_spec in E. congruence.
Qed.

Lemma ieee_lookup_addEntry (m : gmap string ProductData.t)
    (e : DailyEntry.t) (pid : string) :
  addEntry m e !! pid = stepAt pid (m !! pid) e.
Proof.
  unfold addEntry, stepAt.
  destruct (truthy_id (DailyEntry.productId e)) as [k|] eqn:Hk.
  - case_bool_decide as Hp.
    + injection Hp as ->.
      destruct (String.eqb (DailyEntry.type e) "SALE");
        [by rewrite lookup_insert_eq|].
      destruct (String.eqb (DailyEntry.type e) "EXPENSE"
                || String.eqb (DailyEntry.type e) "STOCK_IN");
        [by rewrite lookup_insert_eq|done].
    + assert (k ≠ pid) by congruence.
      destruct (String.eqb (DailyEntry.type e) "SALE");
        [by rewrite lookup_insert_ne|].
      destruct (String.eqb (DailyEntry.type e) "EXPENSE"
                || String.eqb (DailyEntry.type e) "STOCK_IN");
        [by rewrite lookup_insert_ne|done].
  - by rewrite bool_decide_eq_false_2.
Qed.

Lemma ieee_lookup_foldl_addEntry (entries : list DailyEntry.t)
    (m : gmap string ProductData.t) (pid : string) :
  foldl addEntry m entries !! pid = foldl (stepAt pid) (m !! pid) entries.
Proof.
  revert m. induction entries as [|e entries IH]; intros m; simpl; [done|].
  by rewrite IH, ieee_lookup_addEntry.
Qed.

Lemma ieee_lookup_aggregate (entries : list DailyEntry.t) (pid : string) :
  aggregate entries !! pid = foldl (stepAt pid) None entries.
Proof.
  unfold aggregate. by rewrite ieee_lookup_foldl_addEntry, lookup_empty.
Qed.

Lemma ieee_addEntry_ignored (m : gmap string ProductData.t)
    (e : DailyEntry.t) :
  ignored e → addEntry m e = m.
Proof.
  unfold addEntry. intros [->|(H1 & H2 & H3)]; [done|].
  destruct (truthy_id (DailyEntry.productId e)); [|done].
  apply String.eqb_neq in H1, H2, H3. by rewrite H1, H2, H3.
Qed.

Lemma dataAfter_nil (d : ProductData.t) : dataAfter d [] [] = d.
Proof. by destruct d. Qed.

(** The three cases of an entry at a key that is not empty. *)
Lemma ieee_stepAt_cases (pid : string) (o : option ProductData.t)
    (e : DailyEntry.t) :
  pid ≠ "" →
  (isSaleOf pid e = true ∧ isCostOf pid e = false
   ∧ stepAt pid o e = Some (dataAfter (default ProductData.zero o) [e] []))
  ∨ (isSaleOf pid e = false ∧ isCostOf pid e = true
     ∧ stepAt pid o e = Some (dataAfter (default ProductData.zero o) [] [e]))
  ∨ (isSaleOf pid e = false ∧ isCostOf pid e = false ∧ stepAt pid o e = o).
Proof.
  intros Hpid. unfold stepAt, isSaleOf, isCostOf.
  assert (bool_decide (truthy_id (DailyEntry.productId e) = Some pid)
          = bool_decide (DailyEntry.productId e = Some pid)) as ->.
  { apply bool_decide_ext. rewrite truthy_id_Some. by split; [intros []|]. }
  destruct (bool_decide (DailyEntry.productId e = Some pid)); cbn [andb];
    [|by right; right].
  destruct (String.eqb_spec (DailyEntry.type e) "SALE") as [Ht|Ht].
  - left. rewrite Ht. by destruct (default ProductData.zero o).
  - right. destruct (String.eqb (DailyEntry.type e) "EXPENSE"
                     || String.eqb (DailyEntry.type e) "STOCK_IN");
      [left|right]; [|done].
    by destruct (default ProductData.zero o).
Qed.

(** The entry at a key after a list of entries: untouched when the list
    holds no SALE, EXPENSE or STOCK_IN entry of the key, and else the sums
    of these entries, each taken in the order of the list. *)
Lemma ieee_foldl_stepAt (pid : string) (entries : list DailyEntry.t)
    (o : option ProductData.t) :
  pid ≠ "" →
  foldl (stepAt pid) o entries
  = match List.filter (isSaleOf pid) entries,
          List.filter (isCostOf pid) entries with
    | [], [] => o
    | sales, costs => Some (dataAfter (default ProductData.zero o) sales costs)
    end.
Proof.
  intros Hpid. revert o.
  induction entries as [|e entries IH]; intros o; [done|].
  cbn [foldl List.filter]. rewrite IH.
  destruct (ieee_stepAt_cases pid o e Hpid)
    as [(-> & -> & ->)|[(-> & -> & ->)|(-> & -> & ->)]]; [| |done].
  - by destruct (List.filter (isSaleOf pid) entries),
      (List.filter (isCostOf pid) entries).
  - by destruct (List.filter (isSaleOf pid) entries),
      (List.filter (isCostOf pid) entries).
Qed.

Lemma ieee_aggregate_data (entries : list DailyEntry.t) (pid : string) :
  pid ≠ "" →
  dataOf (aggregate entries) pid
  = dataAfter ProductData.zero (List.filter (isSaleOf pid) entries)
                               (List.filter (isCostOf pid) entries).
Proof.
  intros Hpid. unfold dataOf.
  rewrite ieee_lookup_aggregate, (ieee_foldl_stepAt pid entries None Hpid).
  by destruct (List.filter (isSaleOf pid) entries),
    (List.filter (isCostOf pid) entries).
Qed.

Lemma ieee_stepAt_empty_id (o : option ProductData.t) (e : DailyEntry.t) :
  stepAt "" o e = o.
Proof.
  unfold stepAt. rewrite bool_decide_eq_false_2; [done|].
  intros H%truthy_id_Some. by destruct H.
Qed.

Lemma ieee_aggregate_empty_id (entries : list DailyEntry.t) :
  aggregate entries !! "" = None.
Proof.
  rewrite ieee_lookup_aggregate. generalize (@None ProductData.t).
  induction entries as [|e entries IH]; intros o; simpl; [done|].
  by rewrite ieee_stepAt_empty_id.
Qed.

Lemma ieee_aggregate_sameOrder (entries entries' : list DailyEntry.t) :
  sameOrderPerProduct entries entries' →
  aggregate entries = aggregate entries'.
Proof.
  intros H. apply map_eq. intros pid.
  destruct (decide (pid = "")) as [->|Hpid].
  - by rewrite !ieee_aggregate_empty_id.
  - rewrite !ieee_lookup_aggregate, !ieee_foldl_stepAt by done.
    by destruct (H pid) as [-> ->].
Qed.

(** C6, amended: for every entry list and every non-empty product id, the
    aggregate read for that id has [revenue] the sum of [amount] over the
    SALE entries with that [productId], [quantity] the sum of their
    [quantity] (0 when absent, zero or [NaN]) and [totalCost] the sum of
    [amount] over the EXPENSE and STOCK_IN entries with that [productId],
    each sum taken on doubles from left to right in the order of the list;
    an entry of another type, or whose [productId] is absent or empty,
    leaves the whole map as it is. *)
Theorem aggregate_sums (entries : list DailyEntry.t) (pid : string) :
  pid ≠ "" →
  let d := dataOf (aggregate entries) pid in
  ProductData.revenue d
  = runningSum (DailyEntry.amount <$> List.filter (isSaleOf pid) entries)
  ∧ ProductData.quantity d
    = runningSum (quantityOf <$> List.filter (isSaleOf pid) entries)
  ∧ ProductData.totalCost d
    = runningSum (DailyEntry.amount <$> List.filter (isCostOf pid) entries)
  ∧ ∀ e es1 es2, entries = es1 ++ e :: es2 → ignored e →
      aggregate (es1 ++ es2) = aggregate entries.
Proof.
  intros Hpid d. subst d. rewrite (ieee_aggregate_data entries pid Hpid).
  repeat split.
  intros e es1 es2 -> He. unfold aggregate.
  rewrite !foldl_app. simpl. by rewrite ieee_addEntry_ignored.
Qed.

Lemma aggregate_sums_witness :
  let entries := [sale "a" 0.5 2; expense "a" 30; sale "b" 7 1;
                  sale "a" 100 1] in
  let d := dataOf (aggregate entries) "a" in
  ProductData.revenue d
  = runningSum (DailyEntry.amount <$> List.filter (isSaleOf "a") entries)
  ∧ ProductData.quantity d
    = runningSum (quantityOf <$> List.filter (isSaleOf "a") entries)
  ∧ ProductData.totalCost d
    = runningSum (DailyEntry.amount <$> List.filter (isCostOf "a") entries)
  ∧ ∀ e es1 es2, entries = es1 ++ e :: es2 → ignored e →
      aggregate (es1 ++ es2) = aggregate entries.
Proof.
  apply (aggregate_sums [sale "a" 0.5 2; expense "a" 30; sale "b" 7 1;
                         sale "a" 100 1] "a").
  discriminate.
Defined.

(** C6 does not extend to the empty product id: a SALE entry whose
    [productId] is the empty string is skipped by the test
    [if (entry.productId)], so the aggregate read for [""] has revenue [0]
    while the SALE entries with that id sum to [5]. *)
Lemma aggregate_sums_empty_id :
  let entries := [DailyEntry.mk (Some "") "SALE" 5 None] in
  ProductData.revenue (dataOf (aggregate entries) "") = 0
  ∧ runningSum (DailyEntry.amount <$> List.filter (isSaleOf "") entries) = 5
  ∧ ProductData.revenue (dataOf (aggregate entries) "")
    ≠ runningSum (DailyEntry.amount <$> List.filter (isSaleOf "") entries).
Proof.
  intros entries.
  assert (H0 : ProductData.revenue (dataOf (aggregate entries) "") = 0)
    by reflexivity.
  assert (H5 : runningSum (DailyEntry.amount
                             <$> List.filter (isSaleOf "") entries) = 5)
    by reflexivity.
  split; [exact H0|]. split; [exact H5|].
  rewrite H0, H5. by apply float_neq.
Qed.

(** C7, amended: rearranging the entry list changes neither the map the
    aggregation builds nor the report and summary of the engine, as long as
    the SALE entries of each product keep their relative order and so do
    its EXPENSE and STOCK_IN entries (entries of different products, and
    the sales and the costs of one product, may be interleaved at will). *)
Theorem per_product_order_invariance (entries entries' : list DailyEntry.t)
    (stockItems : list StockItem.t) (daysToAnalyze : option float) :
  sameOrderPerProduct entries entries' →
  aggregate entries = aggregate entries'
  ∧ calculateProductPerformance entries stockItems daysToAnalyze
    = calculateProductPerformance entries' stockItems daysToAnalyze.
Proof.
  intros H%ieee_aggregate_sameOrder. split; [done|].
  unfold calculateProductPerformance. by rewrite H.
Qed.

#[warnings="-inexact-float"]
Lemma per_product_order_invariance_witness :
  let entries := [sale "a" 0.1 1; expense "a" 0.3; sale "b" 7 1;
                  sale "a" 0.2 1] in
  let entries' := [expense "a" 0.3; sale "a" 0.1 1; sale "b" 7 1;
                   sale "a" 0.2 1] in
  entries ≡ₚ entries'
  ∧ aggregate entries = aggregate entries'
  ∧ calculateProductPerformance entries [stock "a" 1 2; stock "b" 0 1] None
    = calculateProductPerformance entries' [stock "a" 1 2; stock "b" 0 1]
                                  None.
Proof.
  intros entries entries'. split; [apply perm_swap|].
  apply (per_product_order_invariance entries entries').
  intros pid. unfold entries, entries', isSaleOf, isCostOf.
  cbn [List.filter sale expense DailyEntry.productId DailyEntry.type
       String.eqb Ascii.eqb Bool.eqb andb orb].
  by repeat case_bool_decide.
Defined.

(** C7 fails for permutations in general: the sums are taken on doubles in
    the order of the list.  Three sales of [2 ^ 53], 1 and 1 add up to
    [2 ^ 53], each 1 being lost in the rounding, while the same sales in
    the order 1, 1, [2 ^ 53] add up to [2 ^ 53 + 2]; the map and the report
    differ. *)
Lemma permutation_changes_report :
  let entries := [sale "a" 9007199254740992 1; sale "a" 1 1; sale "a" 1 1] in
  let entries' := [sale "a" 1 1; sale "a" 1 1; sale "a" 9007199254740992 1] in
  entries ≡ₚ entries'
  ∧ ProductData.revenue (dataOf (aggregate entries) "a") = 9007199254740992
  ∧ ProductData.revenue (dataOf (aggregate entries') "a") = 9007199254740994
  ∧ aggregate entries ≠ aggregate entries'
  ∧ calculateProductPerformance entries [stock "a" 0 3] None
    ≠ calculateProductPerformance entries' [stock "a" 0 3] None.
Proof.
  intros entries entries'.
  assert (9007199254740992 ≠ 9007199254740994) as Hne by (by apply float_neq).
  split; [|split; [reflexivity|split; [reflexivity|split]]].
  - unfold entries, entries'.
    rewrite (Permutation_cons_append [_; _]). done.
  - intros H. apply (f_equal (λ m, ProductData.revenue (dataOf m "a"))) in H.
    by apply Hne.
  - intros H.
    apply (f_equal (λ r, default 0 (head (ProductPerformance.totalRevenue
                                            <$> Report.products r)))) in H.
    by apply Hne.
Qed.
End ieee_aggregate.

(** ** The classifier *)

Section ieee_classifier.
Import IEEE.
Local Open Scope float_scope.

Lemma ltb_true_not_nan (x y : float) :
  PrimFloat.ltb x y = true → is_nan x = false ∧ is_nan y = false.
Proof.
  intros H. split.
  - destruct (is_nan x) eqn:E; [|done]. by rewrite ltb_nan_l in H.
  - destruct (is_nan y) eqn:E; [|done]. by rewrite ltb_nan_r in H.
Qed.

Lemma gt_zero_not_eq (x : float) :
  Num.gt x 0 = true → PrimFloat.eqb x 0 = false.
Proof.
  unfold Num.gt. intros H.
  destruct (ltb_true_not_nan _ _ H) as [H0 Hx].
  rewrite ltb_ford in H by done. rewrite eqb_ford by done.
  apply Z.ltb_lt in H. apply Z.eqb_neq. lia.
Qed.

(** A double that is neither positive nor zero is negative or [NaN]. *)
Lemma not_gt_not_eq (x : float) :
  Num.gt x 0 = false → PrimFloat.eqb x 0 = false →
  PrimFloat.ltb x 0 = true ∨ is_nan x = true.
Proof.
  unfold Num.gt. intros Hgt Heq.
  destruct (is_nan x) eqn:Hx; [by right|left].
  rewrite ltb_ford in * by done. rewrite eqb_ford in Heq by done.
  apply Z.ltb_ge in Hgt. apply Z.eqb_neq in Heq. apply Z.ltb_lt. lia.
Qed.

(** C2, amended: a product with [currentStock == 0] and
    [realizationRate > 0] is classified COMPLETED_PROFITABLE when its
    realized profit is positive, COMPLETED_BREAKEVEN when it is zero and
    COMPLETED_LOSS otherwise, that is, when it is negative or [NaN]; hence
    never IN_PROGRESS_* and never UNKNOWN, whatever the realization rate.
    The product with revenue 100000, cost 50000, 10 units sold, stock 0 and
    [totalSold] 10 has realized profit 50000, margin 50, realization rate
    100 and category COMPLETED_PROFITABLE. *)
Theorem sold_out_is_completed :
  (∀ (entries : list DailyEntry.t) (daysToAnalyze : float)
     (item : StockItem.t),
     let p := performanceOf (aggregate entries) daysToAnalyze item in
     PrimFloat.eqb (ProductPerformance.currentStock p) 0 = true →
     Num.gt (ProductPerformance.realizationRate p) 0 = true →
     (Num.gt (ProductPerformance.realizedProfit p) 0 = true
      ∧ ProductPerformance.performanceCategory p = "COMPLETED_PROFITABLE")
     ∨ (PrimFloat.eqb (ProductPerformance.realizedProfit p) 0 = true
        ∧ ProductPerformance.performanceCategory p = "COMPLETED_BREAKEVEN")
     ∨ ((PrimFloat.ltb (ProductPerformance.realizedProfit p) 0 = true
         ∨ is_nan (ProductPerformance.realizedProfit p) = true)
        ∧ ProductPerformance.performanceCategory p = "COMPLETED_LOSS"))
  ∧ (∀ daysToAnalyze : float,
       let p :=
         performanceOf
           (aggregate [sale "a" 100000 10; expense "a" 50000])
           daysToAnalyze (stock "a" 0 10) in
       ProductPerformance.totalRevenue p = 100000
       ∧ ProductPerformance.unitsSold p = 10
       ∧ ProductPerformance.realizedProfit p = 50000
       ∧ ProductPerformance.profitMargin p = 50
       ∧ ProductPerformance.realizationRate p = 100
       ∧ ProductPerformance.currentStock p = 0
       ∧ ProductPerformance.performanceCategory p = "COMPLETED_PROFITABLE").
Proof.
  split; [|by intros d p; repeat split].
  intros entries d item p Hstock Hrate.
  change (ProductPerformance.performanceCategory p)
    with (categorizePerformance
            (ProductPerformance.realizedProfit p)
            (ProductPerformance.projectedProfit p)
            (ProductPerformance.realizationRate p)
            (ProductPerformance.currentStock p)).
  unfold categorizePerformance.
  rewrite (gt_zero_not_eq _ Hrate), Hstock.
  destruct (Num.gt (ProductPerformance.realizedProfit p) 0) eqn:Hgt;
    [by left|right].
  destruct (PrimFloat.eqb (ProductPerformance.realizedProfit p) 0) eqn:Heq;
    [by left|right].
  split; [|done]. by apply not_gt_not_eq.
Qed.

Lemma sold_out_is_completed_witness :
  let p :=
    performanceOf (aggregate [sale "a" 100 2; expense "a" 130]) 30
                  (stock "a" 0 2) in
  PrimFloat.ltb (ProductPerformance.realizedProfit p) 0 = true
  ∧ ProductPerformance.performanceCategory p = "COMPLETED_LOSS".
Proof.
  intros p.
  destruct sold_out_is_completed as [H _].
  destruct (H [sale "a" 100 2; expense "a" 130] 30 (stock "a" 0 2)
              eq_refl eq_refl) as [[Hgt _]|[[Heq _]|[_ Hcat]]].
  - discriminate Hgt.
  - discriminate Heq.
  - split; [reflexivity|exact Hcat].
Defined.

(** C2 fails where the realized profit is [NaN]: two sales and two
    expenses of [2 ^ 1023] each make the revenue and the cost overflow to
    [Infinity], their difference is [NaN], and the sold-out product is
    classified COMPLETED_LOSS although its profit is not negative. *)
Lemma sold_out_loss_without_negative_profit :
  let r :=
    calculateProductPerformance
      [sale "a" 0x1p1023 1; sale "a" 0x1p1023 1;
       expense "a" 0x1p1023; expense "a" 0x1p1023]
      [stock "a" 0 2] None in
  (λ p, (ProductPerformance.totalRevenue p,
         ProductPerformance.currentStock p,
         ProductPerformance.realizationRate p,
         ProductPerformance.performanceCategory p)) <$> Report.products r
  = [(infinity, 0, 100, "COMPLETED_LOSS")]
  ∧ Forall (λ p, is_nan (ProductPerformance.realizedProfit p) = true
                 ∧ PrimFloat.ltb (ProductPerformance.realizedProfit p) 0
                   = false)
           (Report.products r).
Proof.
  split; [reflexivity|]. by repeat constructor.
Qed.
End ieee_classifier.

(** ** The stable sort *)

Section ieee_sort_facts.
Import IEEE.
Local Open Scope float_scope.
Context {A : Type} (cmp : A → A → float).

Lemma ieee_sort_cons (x : A) (l : list A) :
  sort cmp (x :: l) = sortInsert cmp x (sort cmp l).
Proof. reflexivity. Qed.

Lemma ieee_sortInsert_Permutation (x : A) (l : list A) :
  sortInsert cmp x l ≡ₚ x :: l.
Proof.
  induction l as [|y l IH]; cbn [sortInsert]; [reflexivity|].
  destruct (Num.gt (cmp x y) 0); [|reflexivity].
  rewrite IH. apply perm_swap.
Qed.

Lemma ieee_sort_Permutation (l : list A) : sort cmp l ≡ₚ l.
Proof.
  induction l as [|x l IH]; [reflexivity|].
  by rewrite ieee_sort_cons, ieee_sortInsert_Permutation, IH.
Qed.

Lemma ieee_sort_length (l : list A) : length (sort cmp l) = length l.
Proof. by rewrite ieee_sort_Permutation. Qed.

Lemma ieee_sortInsert_ext (cmp' : A → A → float) (x : A) (l : list A) :
  (∀ y, y ∈ l → cmp x y = cmp' x y) →
  sortInsert cmp x l = sortInsert cmp' x l.
Proof.
  induction l as [|y l IH]; intros H; cbn [sortInsert]; [done|].
  rewrite <- (H y) by left.
  rewrite IH; [done|]. intros z Hz. apply H. by right.
Qed.

Lemma ieee_sort_ext (cmp' : A → A → float) (l : list A) :
  (∀ x y, x ∈ l → y ∈ l → cmp x y = cmp' x y) →
  sort cmp l = sort cmp' l.
Proof.
  induction l as [|x l IH]; intros H; [done|].
  rewrite (ieee_sort_cons x l). change (sort cmp' (x :: l))
    with (sortInsert cmp' x (sort cmp' l)).
  rewrite <- IH.
  - apply ieee_sortInsert_ext. intros y Hy. apply H; [left|right].
    by rewrite ieee_sort_Permutation in Hy.
  - intros y z Hy Hz. apply H; by right.
Qed.

Context (key : A → Z) (pos : A → nat).

Lemma ieee_sortInsert_sorted (x : A) (s : list A) :
  (∀ y, y ∈ s → Num.gt (cmp x y) 0 = true ↔ (key x < key y)%Z) →
  (∀ y, y ∈ s → (pos x < pos y)%nat) →
  StronglySorted (before key pos) s →
  StronglySorted (before key pos) (sortInsert cmp x s).
Proof.
  induction s as [|y s IH]; intros Hcmp Hpos Hs; cbn [sortInsert].
  { repeat constructor. }
  apply StronglySorted_cons in Hs as [Hy Hs].
  destruct (Num.gt (cmp x y) 0) eqn:Hgt.
  - apply Hcmp in Hgt; [|left].
    apply StronglySorted_cons. split.
    + rewrite ieee_sortInsert_Permutation. constructor; [by left|done].
    + apply IH; [| |done]; intros z Hz; [apply Hcmp|apply Hpos]; by right.
  - assert (key y ≤ key x)%Z as Hle.
    { apply Z.le_ngt. intros Hlt. apply Hcmp in Hlt; [congruence|left]. }
    constructor; [by constructor|].
    apply Forall_forall. intros z Hz.
    assert (key z ≤ key x)%Z as Hzx.
    { apply elem_of_cons in Hz as [->|Hz]; [done|].
      rewrite Forall_forall in Hy.
      destruct (Hy z Hz) as [Hlt|[Heq _]]; lia. }
    destruct (Z.eq_dec (key z) (key x)) as [Heq|Hne]; [right|left; lia].
    split; [done|]. by apply Hpos.
Qed.

Lemma ieee_sort_sorted (l : list A) :
  (∀ x y, x ∈ l → y ∈ l →
     Num.gt (cmp x y) 0 = true ↔ (key x < key y)%Z) →
  StronglySorted (λ x y, (pos x < pos y)%nat) l →
  StronglySorted (before key pos) (sort cmp l).
Proof.
  induction l as [|x l IH]; intros Hcmp Hl.
  { constructor. }
  rewrite ieee_sort_cons.
  apply StronglySorted_cons in Hl as [Hx Hl].
  apply ieee_sortInsert_sorted.
  - intros y Hy. rewrite ieee_sort_Permutation in Hy.
    apply Hcmp; [left|by right].
  - intros y Hy. rewrite ieee_sort_Permutation in Hy.
    rewrite Forall_forall in Hx. by apply Hx.
  - apply IH; [|done]. intros y z Hy Hz. apply Hcmp; by right.
Qed.

Lemma ieee_before_irrefl (x : A) : ¬ before key pos x x.
Proof. intros [H|[_ H]]; lia. Qed.

Lemma ieee_before_asym (x y : A) :
  before key pos x y → before key pos y x → False.
Proof. intros [H1|[E1 H1]] [H2|[E2 H2]]; lia. Qed.
End ieee_sort_facts.

Lemma ieee_sort_fmap {A B : Type} (f : A → B) (cmp : B → B → float)
    (l : list A) :
  IEEE.sort cmp (f <$> l) = f <$> IEEE.sort (λ a b, cmp (f a) (f b)) l.
Proof.
  induction l as [|x l IH]; [done|].
  rewrite fmap_cons, !ieee_sort_cons, IH.
  generalize (IEEE.sort (λ a b, cmp (f a) (f b)) l). intros s.
  induction s as [|y s IHs]; [done|].
  rewrite fmap_cons. cbn [IEEE.sortInsert].
  destruct (IEEE.Num.gt (cmp (f x) (f y)) 0); [|done].
  by rewrite fmap_cons, IHs.
Qed.

(** ** Writing the ranks *)

Section ieee_rank_pass.
Import IEEE.
Local Open Scope float_scope.
Context (key : ProductPerformance.t → float)
        (rank : ProductPerformance.t → nat)
        (set_rank : nat → ProductPerformance.t → ProductPerformance.t).
Hypothesis rank_set : ∀ r p, rank (set_rank r p) = r.
Hypothesis key_set : ∀ r p, key (set_rank r p) = key p.

Let write (p i : nat) (h : heap) : heap := alter (set_rank (i + 1)%nat) p h.

Lemma ieee_forEach_from_length (k : nat) (s : list nat) (h : heap) :
  length (forEach_from write k s h) = length h.
Proof.
  revert k h. induction s as [|x s IH]; intros k h; cbn [forEach_from];
    [done|].
  rewrite IH. apply length_alter.
Qed.

Lemma ieee_forEach_from_frame {B : Type} (f : ProductPerformance.t → B)
    (k : nat) (s : list nat) (h : heap) (a : nat) :
  (∀ r p, f (set_rank r p) = f p) →
  f (forEach_from write k s h !!! a) = f (h !!! a).
Proof.
  intros Hf. revert k h.
  induction s as [|x s IH]; intros k h; cbn [forEach_from]; [done|].
  rewrite IH. unfold write. rewrite list_lookup_total_alter.
  case_decide as Hx; [|done]. destruct Hx as [-> _]. apply Hf.
Qed.

Lemma ieee_forEach_from_notin (k : nat) (s : list nat) (h : heap) (a : nat) :
  a ∉ s → forEach_from write k s h !!! a = h !!! a.
Proof.
  revert k h.
  induction s as [|x s IH]; intros k h Ha; cbn [forEach_from]; [done|].
  apply not_elem_of_cons in Ha as [Hne Ha].
  rewrite IH by done. unfold write.
  by rewrite list_lookup_total_alter_ne.
Qed.

Lemma ieee_forEach_from_rank (k : nat) (s : list nat) (h : heap)
    (i a : nat) :
  NoDup s → (∀ x, x ∈ s → (x < length h)%nat) → s !! i = Some a →
  rank (forEach_from write k s h !!! a) = (k + i + 1)%nat.
Proof.
  revert k h i. induction s as [|x s IH]; intros k h i Hnd Hr Hi; [done|].
  apply NoDup_cons in Hnd as [Hx Hnd]. cbn [forEach_from].
  destruct i as [|i]; simpl in Hi.
  - injection Hi as ->. rewrite ieee_forEach_from_notin by done.
    unfold write. rewrite list_lookup_total_alter_eq by (apply Hr; left).
    rewrite rank_set. lia.
  - rewrite (IH (S k) _ i); [lia|done| |done].
    intros y Hy. unfold write. rewrite length_alter. apply Hr. by right.
Qed.

Context (products : list nat) (h : heap).
Hypothesis increasing : StronglySorted lt products.
Hypothesis in_range : ∀ a, a ∈ products → (a < length h)%nat.
Hypothesis no_nan : ∀ a, a ∈ products → is_nan (key (h !!! a)) = false.

Let keyz (a : nat) : Z := ford (key (h !!! a)).
Let cmp (a b : nat) : float := key (h !!! b) - key (h !!! a).
Let sorted : list nat := sort cmp products.

Lemma ieee_cmp_keyz (a b : nat) :
  a ∈ products → b ∈ products →
  Num.gt (cmp a b) 0 = true ↔ (keyz a < keyz b)%Z.
Proof.
  intros Ha Hb. unfold Num.gt, cmp, keyz.
  rewrite sub_gt_zero, ltb_ford by (by apply no_nan).
  apply Z.ltb_lt.
Qed.

Lemma ieee_products_NoDup : NoDup products.
Proof. by apply StronglySorted_lt_NoDup. Qed.

Lemma ieee_products_lookup_lt (i j a b : nat) :
  products !! i = Some a → products !! j = Some b →
  (i < j)%nat ↔ (a < b)%nat.
Proof.
  intros Hi Hj. split; intros Hlt.
  - by apply (StronglySorted_lookup lt products i j).
  - destruct (lt_eq_lt_dec i j) as [[?| ->]|Hji]; [done| |].
    + rewrite Hi in Hj. injection Hj as ->. lia.
    + pose proof (StronglySorted_lookup lt products j i b a
                    increasing Hj Hi Hji). lia.
Qed.

Lemma ieee_sorted_Permutation : sorted ≡ₚ products.
Proof. apply ieee_sort_Permutation. Qed.

Lemma ieee_sorted_before : StronglySorted (before keyz id) sorted.
Proof.
  apply ieee_sort_sorted; [apply ieee_cmp_keyz|exact increasing].
Qed.

Lemma ieee_rankPass_rank (i a : nat) :
  sorted !! i = Some a →
  rank (rankPass key set_rank products h !!! a) = (i + 1)%nat.
Proof.
  intros Hi. unfold rankPass, forEach.
  apply (ieee_forEach_from_rank 0 sorted h i a); [| |done].
  - rewrite ieee_sorted_Permutation. apply ieee_products_NoDup.
  - intros x Hx. rewrite ieee_sorted_Permutation in Hx. by apply in_range.
Qed.

Lemma ieee_sorted_index_lt (ia ib a b : nat) :
  sorted !! ia = Some a → sorted !! ib = Some b →
  (ia < ib)%nat ↔ before keyz id a b.
Proof.
  intros Ha Hb. split.
  - intros Hlt.
    by apply (StronglySorted_lookup _ sorted ia ib a b ieee_sorted_before).
  - intros Hab. destruct (lt_eq_lt_dec ia ib) as [[?| ->]|Hlt]; [done| |].
    + rewrite Ha in Hb. injection Hb as ->.
      by apply ieee_before_irrefl in Hab.
    + exfalso. apply (ieee_before_asym keyz id a b Hab).
      by apply (StronglySorted_lookup _ sorted ib ia b a ieee_sorted_before).
Qed.

(** The ranks read in a later store [h'] that kept the ranks and the keys
    of the pass. *)
Lemma ieee_rankPass_ranked (h' : heap) :
  (∀ a, a ∈ products →
     rank (h' !!! a) = rank (rankPass key set_rank products h !!! a)) →
  (∀ a, a ∈ products → key (h' !!! a) = key (h !!! a)) →
  ranked key rank ((h' !!!.) <$> products).
Proof.
  intros Hrank Hkey.
  assert (sort (λ p q, key q - key p) ((h' !!!.) <$> products)
          = (h' !!!.) <$> sorted) as Hsort.
  { rewrite ieee_sort_fmap. f_equal. apply ieee_sort_ext.
    intros a b Ha Hb. unfold cmp. by rewrite !Hkey. }
  assert (rank <$> ((h' !!!.) <$> sorted) = seq 1 (length products))
    as Hseq.
  { apply list_eq. intros i. rewrite !list_lookup_fmap.
    destruct (sorted !! i) as [a|] eqn:Hi; simpl.
    - assert (a ∈ products) as Ha.
      { rewrite <- ieee_sorted_Permutation.
        by eapply list_elem_of_lookup_2. }
      rewrite (Hrank a Ha), (ieee_rankPass_rank i a Hi).
      apply lookup_lt_Some in Hi.
      unfold sorted in Hi. rewrite ieee_sort_length in Hi.
      rewrite lookup_seq_lt by done. f_equal. lia.
    - apply lookup_ge_None in Hi.
      unfold sorted in Hi. rewrite ieee_sort_length in Hi.
      by rewrite lookup_seq_ge. }
  unfold ranked. rewrite length_fmap, Hsort. split; [|split; [done|]].
  - rewrite <- Hseq. by rewrite ieee_sorted_Permutation.
  - intros i j p q Hp Hq.
    apply list_lookup_fmap_Some in Hp as (a & -> & Ha).
    apply list_lookup_fmap_Some in Hq as (b & -> & Hb).
    assert (a ∈ products) as Hain by (by eapply list_elem_of_lookup_2).
    assert (b ∈ products) as Hbin by (by eapply list_elem_of_lookup_2).
    destruct (list_elem_of_lookup_1 sorted a) as [ia Hia];
      [by rewrite ieee_sorted_Permutation|].
    destruct (list_elem_of_lookup_1 sorted b) as [ib Hib];
      [by rewrite ieee_sorted_Permutation|].
    rewrite (Hrank a Hain), (Hrank b Hbin), (Hkey a Hain), (Hkey b Hbin).
    rewrite (ieee_rankPass_rank ia a Hia), (ieee_rankPass_rank ib b Hib).
    rewrite ltb_ford, eqb_ford by (by apply no_nan).
    rewrite (ieee_products_lookup_lt i j a b Ha Hb).
    rewrite Z.ltb_lt, Z.eqb_eq.
    transitivity (before keyz id a b).
    + rewrite <- (ieee_sorted_index_lt ia ib a b Hia Hib). lia.
    + reflexivity.
Qed.
End ieee_rank_pass.

Section ieee_rankings.
Import IEEE.
Local Open Scope float_scope.

Lemma ieee_rankPass_frame {B : Type} (key : ProductPerformance.t → float)
    (set_rank : nat → ProductPerformance.t → ProductPerformance.t)
    (f : ProductPerformance.t → B) (products : list nat) (h : heap)
    (a : nat) :
  (∀ r p, f (set_rank r p) = f p) →
  f (rankPass key set_rank products h !!! a) = f (h !!! a).
Proof.
  intros Hf. unfold rankPass, forEach. by apply ieee_forEach_from_frame.
Qed.

Lemma ieee_rankPass_length (key : ProductPerformance.t → float)
    (set_rank : nat → ProductPerformance.t → ProductPerformance.t)
    (products : list nat) (h : heap) :
  length (rankPass key set_rank products h) = length h.
Proof. unfold rankPass, forEach. apply ieee_forEach_from_length. Qed.

Lemma ieee_addRankings_passes (products : list nat) (h : heap) :
  addRankings products h
  = rankPass ProductPerformance.stockEfficiency
      ProductPerformance.set_rankByEfficiency products
      (rankPass ProductPerformance.estimatedProfit
         ProductPerformance.set_rankByProfit products
         (rankPass ProductPerformance.totalRevenue
            ProductPerformance.set_rankByRevenue products h)).
Proof. reflexivity. Qed.

Lemma ieee_active_increasing (h : heap) : StronglySorted lt (active h).
Proof. apply StronglySorted_filter, StronglySorted_seq. Qed.

Lemma ieee_active_elem (h : heap) (a : nat) :
  a ∈ active h ↔
  (a < length h)%nat
  ∧ Num.gt (ProductPerformance.unitsSold (h !!! a)) 0 = true.
Proof.
  unfold active. rewrite list_elem_of_In, filter_In, <- list_elem_of_In.
  rewrite elem_of_seq. intuition lia.
Qed.

Lemma ieee_allocated_profit (m : gmap string ProductData.t) (d : float)
    (stockItems : list StockItem.t) (a : nat) :
  ProductPerformance.estimatedProfit (allocated m d stockItems !!! a)
  = ProductPerformance.realizedProfit (allocated m d stockItems !!! a).
Proof.
  unfold allocated. change (map ?f ?l) with (f <$> l).
  destruct (stockItems !! a) as [item|] eqn:E.
  - by rewrite (list_lookup_total_fmap _ _ _ _ E)
      || (erewrite list_lookup_total_correct;
          [|by rewrite list_lookup_fmap, E]).
  - rewrite list_lookup_total_alt, list_lookup_fmap, E. reflexivity.
Qed.

(** The three rankings of the returned list, one key at a time. *)
Lemma ieee_products_ranked (entries : list DailyEntry.t)
    (stockItems : list StockItem.t) (daysToAnalyze : option float) :
  let ps :=
    Report.products
      (calculateProductPerformance entries stockItems daysToAnalyze) in
  (noNaN ProductPerformance.totalRevenue ps →
   ranked ProductPerformance.totalRevenue ProductPerformance.rankByRevenue ps)
  ∧ (noNaN ProductPerformance.estimatedProfit ps →
     ranked ProductPerformance.estimatedProfit
            ProductPerformance.rankByProfit ps)
  ∧ (noNaN ProductPerformance.stockEfficiency ps →
     ranked ProductPerformance.stockEfficiency
            ProductPerformance.rankByEfficiency ps).
Proof.
  intros ps. unfold ps, calculateProductPerformance. cbn [Report.products].
  set (h := allocated (aggregate entries) (daysOrDefault daysToAnalyze)
              stockItems).
  rewrite ieee_addRankings_passes.
  set (h1 := rankPass ProductPerformance.totalRevenue
               ProductPerformance.set_rankByRevenue (active h) h).
  set (h2 := rankPass ProductPerformance.estimatedProfit
               ProductPerformance.set_rankByProfit (active h) h1).
  set (h3 := rankPass ProductPerformance.stockEfficiency
               ProductPerformance.set_rankByEfficiency (active h) h2).
  assert (∀ a, a ∈ active h → (a < length h)%nat) as Hrange.
  { by intros a [Ha _]%ieee_active_elem. }
  assert (∀ {B} (f : ProductPerformance.t → B) a,
            (∀ r p, f (ProductPerformance.set_rankByRevenue r p) = f p) →
            f (h1 !!! a) = f (h !!! a)) as F1.
  { intros B f a Hf. by apply ieee_rankPass_frame. }
  assert (∀ {B} (f : ProductPerformance.t → B) a,
            (∀ r p, f (ProductPerformance.set_rankByProfit r p) = f p) →
            f (h2 !!! a) = f (h1 !!! a)) as F2.
  { intros B f a Hf. by apply ieee_rankPass_frame. }
  assert (∀ {B} (f : ProductPerformance.t → B) a,
            (∀ r p, f (ProductPerformance.set_rankByEfficiency r p) = f p) →
            f (h3 !!! a) = f (h2 !!! a)) as F3.
  { intros B f a Hf. by apply ieee_rankPass_frame. }
  assert (∀ (key : ProductPerformance.t → float) a,
            noNaN key ((h3 !!!.) <$> active h) → a ∈ active h →
            is_nan (key (h3 !!! a)) = false) as Hnan.
  { intros key a H Ha. unfold noNaN in H. rewrite Forall_forall in H.
    apply H. by apply (list_elem_of_fmap_2 (h3 !!!.)). }
  split; [|split]; intros Hno.
  - apply (ieee_rankPass_ranked ProductPerformance.totalRevenue
             ProductPerformance.rankByRevenue
             ProductPerformance.set_rankByRevenue) with (h := h); try done.
    + apply ieee_active_increasing.
    + intros a Ha. rewrite <- F1, <- F2, <- F3 by done. by apply Hnan.
    + intros a Ha. by rewrite F3, F2.
    + intros a Ha. by rewrite F3, F2, F1.
  - apply (ieee_rankPass_ranked ProductPerformance.estimatedProfit
             ProductPerformance.rankByProfit
             ProductPerformance.set_rankByProfit) with (h := h1); try done.
    + apply ieee_active_increasing.
    + intros a Ha. unfold h1. rewrite ieee_rankPass_length. by apply Hrange.
    + intros a Ha. rewrite <- F2, <- F3 by done. by apply Hnan.
    + intros a Ha. by rewrite F3.
    + intros a Ha. by rewrite F3, F2.
  - apply (ieee_rankPass_ranked ProductPerformance.stockEfficiency
             ProductPerformance.rankByEfficiency
             ProductPerformance.set_rankByEfficiency) with (h := h2);
      try done.
    + apply ieee_active_increasing.
    + intros a Ha. unfold h2, h1. rewrite !ieee_rankPass_length.
      by apply Hrange.
    + intros a Ha. rewrite <- F3 by done. by apply Hnan.
    + intros a Ha. by rewrite F3.
Qed.

(** In a returned record [estimatedProfit] is the realized profit. *)
Lemma ieee_products_estimatedProfit (entries : list DailyEntry.t)
    (stockItems : list StockItem.t) (daysToAnalyze : option float)
    (p : ProductPerformance.t) :
  p ∈ Report.products
        (calculateProductPerformance entries stockItems daysToAnalyze) →
  ProductPerformance.estimatedProfit p = ProductPerformance.realizedProfit p.
Proof.
  unfold calculateProductPerformance. cbn [Report.products].
  intros (a & -> & Ha)%list_elem_of_fmap.
  rewrite ieee_addRankings_passes.
  rewrite !(ieee_rankPass_frame _ _ ProductPerformance.estimatedProfit),
    !(ieee_rankPass_frame _ _ ProductPerformance.realizedProfit) by done.
  apply ieee_allocated_profit.
Qed.




End ieee_rankings.

(** ** The best products of the summary *)

Section ieee_best.
Import IEEE.
Local Open Scope float_scope.

Lemma ieee_foldl_better_first_maximum (key : ProductPerformance.t → float)
    (x : ProductPerformance.t) (l : list ProductPerformance.t) :
  noNaN key (x :: l) →
  firstMaximum key (x :: l) (foldl (better key) x l).
Proof.
  unfold noNaN. rewrite Forall_forall.
  induction l as [|z l IH] using rev_ind; intros Hno.
  { exists 0%nat. split; [done|]. intros [|j] q Hq; [|done].
    injection Hq as <-. split; [|lia]. cbn [foldl]. unfold Num.gt.
    rewrite ltb_ford by (apply Hno; left). apply Z.ltb_irrefl. }
  rewrite foldl_app. simpl.
  destruct IH as (i & Hi & Hmax).
  { intros p Hp. apply Hno. rewrite app_comm_cons.
    apply elem_of_app. by left. }
  set (b := foldl (better key) x l) in *.
  assert (b ∈ x :: l) as Hb by (by eapply list_elem_of_lookup_2).
  assert (is_nan (key z) = false) as Hz.
  { apply Hno. rewrite app_comm_cons. apply elem_of_app. right. left. }
  assert (is_nan (key b) = false) as Hkb.
  { apply Hno. rewrite app_comm_cons. apply elem_of_app. by left. }
  unfold better. destruct (Num.gt (key z) (key b)) eqn:Hgt.
  - exists (length (x :: l)). split.
    { rewrite app_comm_cons. by rewrite list_lookup_middle. }
    intros j q Hq. rewrite app_comm_cons in Hq.
    destruct (decide (j < length (x :: l))%nat) as [Hj|Hj].
    + rewrite lookup_app_l in Hq by done.
      destruct (Hmax j q Hq) as [Hle _].
      assert (is_nan (key q) = false) as Hkq.
      { apply Hno. rewrite app_comm_cons. apply elem_of_app. left.
        by eapply list_elem_of_lookup_2. }
      unfold Num.gt in *. rewrite ltb_ford in Hgt, Hle by done.
      apply Z.ltb_lt in Hgt. apply Z.ltb_ge in Hle.
      split; [|intros _]; rewrite ltb_ford by done;
        [apply Z.ltb_ge|apply Z.ltb_lt]; lia.
    + apply lookup_lt_Some in Hq as Hlen.
      rewrite length_app in Hlen. simpl in Hlen.
      assert (j = length (x :: l)) as -> by (simpl in *; lia).
      rewrite list_lookup_middle in Hq by done. injection Hq as <-.
      split; [|lia]. unfold Num.gt. rewrite ltb_ford by done.
      apply Z.ltb_irrefl.
  - exists i. split.
    { rewrite app_comm_cons, lookup_app_l; [done|].
      by eapply lookup_lt_Some. }
    intros j q Hq. rewrite app_comm_cons in Hq.
    destruct (decide (j < length (x :: l))%nat) as [Hj|Hj].
    + rewrite lookup_app_l in Hq by done. by apply Hmax.
    + apply lookup_lt_Some in Hq as Hlen.
      rewrite length_app in Hlen. simpl in Hlen.
      assert (j = length (x :: l)) as -> by (simpl in *; lia).
      rewrite list_lookup_middle in Hq by done. injection Hq as <-.
      split; [done|]. intros Hji. apply lookup_lt_Some in Hi. lia.
Qed.

Lemma ieee_summary_best (entries : list DailyEntry.t)
    (stockItems : list StockItem.t) (daysToAnalyze : option float) :
  let r := calculateProductPerformance entries stockItems daysToAnalyze in
  Summary.bestByRevenue (Report.summary r)
  = reduce1 (better ProductPerformance.totalRevenue) (Report.products r)
  ∧ Summary.bestByProfit (Report.summary r)
    = reduce1 (better ProductPerformance.estimatedProfit) (Report.products r)
  ∧ Summary.bestByScore (Report.summary r)
    = reduce1 (better ProductPerformance.performanceScore)
              (Report.products r).
Proof.
  unfold calculateProductPerformance, calculateSummary.
  cbn [Report.summary Report.products Summary.bestByRevenue
       Summary.bestByProfit Summary.bestByScore].
  repeat split; apply reduce1_fmap; intros a b; unfold better;
    by match goal with |- context [if ?c then _ else _] => destruct c end.
Qed.

Lemma ieee_reduce1_first_maximum (key : ProductPerformance.t → float)
    (ps : list ProductPerformance.t) (b : ProductPerformance.t) :
  noNaN key ps →
  reduce1 (better key) ps = Some b → firstMaximum key ps b.
Proof.
  intros Hno. destruct ps as [|x l]; [done|]. simpl. intros [= <-].
  by apply ieee_foldl_better_first_maximum.
Qed.

(** A record that no other record precedes in a ranking has rank 1. *)
Lemma ieee_ranked_first (key : ProductPerformance.t → float)
    (rank : ProductPerformance.t → nat) (ps : list ProductPerformance.t)
    (b : ProductPerformance.t) :
  ranked key rank ps → noNaN key ps →
  firstMaximum key ps b → rank b = 1%nat.
Proof.
  unfold noNaN. rewrite Forall_forall.
  intros (Hperm & _ & Hlt) Hno (i & Hi & Hmax).
  assert (rank b ∈ seq 1 (length ps)) as Hb.
  { rewrite <- Hperm. apply list_elem_of_fmap_2.
    by eapply list_elem_of_lookup_2. }
  apply elem_of_seq in Hb.
  destruct (decide (rank b = 1%nat)) as [|Hne]; [done|]. exfalso.
  assert (1%nat ∈ rank <$> ps) as H1.
  { rewrite Hperm. apply elem_of_seq. lia. }
  apply list_elem_of_fmap in H1 as (q & Hq1 & Hq).
  apply list_elem_of_lookup_1 in Hq as [j Hj].
  destruct (Hmax j q Hj) as [Hle Hstrict].
  assert (rank q < rank b)%nat as Hrank by lia.
  apply (Hlt j i q b Hj Hi) in Hrank as [Hgt|[Heq Hji]].
  - unfold Num.gt in Hle. congruence.
  - specialize (Hstrict Hji).
    assert (is_nan (key q) = false) as Hkq
      by (apply Hno; by eapply list_elem_of_lookup_2).
    assert (is_nan (key b) = false) as Hkb
      by (apply Hno; by eapply list_elem_of_lookup_2).
    rewrite ltb_ford in Hstrict by done. rewrite eqb_ford in Heq by done.
    apply Z.ltb_lt in Hstrict. apply Z.eqb_eq in Heq. lia.
Qed.

Lemma ieee_ranked_injective (key : ProductPerformance.t → float)
    (rank : ProductPerformance.t → nat) (ps : list ProductPerformance.t)
    (p q : ProductPerformance.t) :
  ranked key rank ps → p ∈ ps → q ∈ ps → rank p = rank q → p = q.
Proof.
  intros (Hperm & _) [i Hi]%list_elem_of_lookup_1
    [j Hj]%list_elem_of_lookup_1 Heq.
  assert (NoDup (rank <$> ps)) as Hnd.
  { rewrite Hperm. apply NoDup_seq. }
  assert (i = j) as ->.
  { apply (NoDup_lookup _ i j (rank p) Hnd).
    - by rewrite list_lookup_fmap, Hi.
    - by rewrite list_lookup_fmap, Hj, Heq. }
  congruence.
Qed.

Lemma ieee_noNaN_estimatedProfit (entries : list DailyEntry.t)
    (stockItems : list StockItem.t) (daysToAnalyze : option float) :
  let ps :=
    Report.products
      (calculateProductPerformance entries stockItems daysToAnalyze) in
  noNaN ProductPerformance.realizedProfit ps →
  noNaN ProductPerformance.estimatedProfit ps.
Proof.
  intros ps. unfold noNaN. rewrite !Forall_forall. intros H p Hp.
  rewrite (ieee_products_estimatedProfit entries stockItems daysToAnalyze)
    by done.
  by apply H.
Qed.

(** The record a reduction singles out is the record of rank 1. *)
Lemma ieee_best_rank_one (key : ProductPerformance.t → float)
    (rank : ProductPerformance.t → nat) (ps : list ProductPerformance.t)
    (p : ProductPerformance.t) :
  ranked key rank ps → noNaN key ps →
  reduce1 (better key) ps = Some p ↔ p ∈ ps ∧ rank p = 1%nat.
Proof.
  intros Hr Hno. split.
  - intros Hb. apply ieee_reduce1_first_maximum in Hb as Hmax; [|done].
    split; [|by eapply ieee_ranked_first].
    destruct Hmax as (i & Hi & _). by eapply list_elem_of_lookup_2.
  - intros [Hp Hrank].
    destruct (reduce1_is_Some (better key) ps) as [b Hb].
    { intros E. rewrite E in Hp. by apply elem_of_nil in Hp. }
    rewrite Hb. f_equal.
    apply ieee_reduce1_first_maximum in Hb as Hmax; [|done].
    apply (ieee_ranked_injective _ _ _ b p Hr); [|done|].
    + destruct Hmax as (i & Hi & _). by eapply list_elem_of_lookup_2.
    + rewrite Hrank. by eapply ieee_ranked_first.
Qed.

(** X7: the best product by revenue of the summary is the returned record
    with [rankByRevenue = 1] when no returned record has [NaN] for revenue,
    and the best product by profit the one with [rankByProfit = 1] when no
    returned record has [NaN] for realized profit: the left-to-right
    reduction of [calculateSummary] and the stable sort of [addRankings]
    single out the same record, the first one on ties. *)
Theorem best_products_have_rank_one (entries : list DailyEntry.t)
    (stockItems : list StockItem.t) (daysToAnalyze : option float) :
  let r := calculateProductPerformance entries stockItems daysToAnalyze in
  (noNaN ProductPerformance.totalRevenue (Report.products r) →
   ∀ p, Summary.bestByRevenue (Report.summary r) = Some p
        ↔ p ∈ Report.products r
          ∧ ProductPerformance.rankByRevenue p = 1%nat)
  ∧ (noNaN ProductPerformance.realizedProfit (Report.products r) →
     ∀ p, Summary.bestByProfit (Report.summary r) = Some p
          ↔ p ∈ Report.products r
            ∧ ProductPerformance.rankByProfit p = 1%nat).
Proof.
  intros r.
  destruct (ieee_summary_best entries stockItems daysToAnalyze)
    as (HbR & HbP & _).
  destruct (ieee_products_ranked entries stockItems daysToAnalyze)
    as (HrR & HrP & _).
  fold r in HbR, HbP, HrR, HrP. cbv zeta in HrR, HrP.
  split; intros Hno p.
  - rewrite HbR. apply ieee_best_rank_one; [by apply HrR|done].
  - apply ieee_noNaN_estimatedProfit in Hno.
    rewrite HbP. apply ieee_best_rank_one; [by apply HrP|done].
Qed.

Lemma best_products_have_rank_one_witness :
  let r :=
    calculateProductPerformance
      [sale "a" 50 1; sale "b" 90 2; expense "b" 40; sale "c" 90 1]
      [stock "a" 1 1; stock "b" 0 2; stock "c" 3 1] None in
  ProductPerformance.productId <$> Summary.bestByRevenue (Report.summary r)
  = Some "b"
  ∧ ProductPerformance.productId <$> Summary.bestByProfit (Report.summary r)
    = Some "c"
  ∧ (∀ p, Summary.bestByRevenue (Report.summary r) = Some p
          ↔ p ∈ Report.products r
            ∧ ProductPerformance.rankByRevenue p = 1%nat)
  ∧ (∀ p, Summary.bestByProfit (Report.summary r) = Some p
          ↔ p ∈ Report.products r
            ∧ ProductPerformance.rankByProfit p = 1%nat).
Proof.
  intros r. split; [reflexivity|]. split; [reflexivity|].
  destruct (best_products_have_rank_one
              [sale "a" 50 1; sale "b" 90 2; expense "b" 40; sale "c" 90 1]
              [stock "a" 1 1; stock "b" 0 2; stock "c" 3 1] None)
    as (HR & HP).
  split; [apply HR|apply HP]; by repeat constructor.
Defined.

(** X8: when no returned record has [NaN] for score, the best product by
    score of the summary is the first returned record whose score no other
    record exceeds; there is none exactly when the report is empty. *)
Theorem best_by_score_is_first_maximum (entries : list DailyEntry.t)
    (stockItems : list StockItem.t) (daysToAnalyze : option float) :
  let r := calculateProductPerformance entries stockItems daysToAnalyze in
  noNaN ProductPerformance.performanceScore (Report.products r) →
  match Summary.bestByScore (Report.summary r) with
  | Some b =>
      firstMaximum ProductPerformance.performanceScore (Report.products r) b
  | None => Report.products r = []
  end.
Proof.
  intros r Hno.
  destruct (ieee_summary_best entries stockItems daysToAnalyze)
    as (_ & _ & HbS).
  fold r in HbS. rewrite HbS.
  destruct (Report.products r) as [|x l] eqn:E; [done|].
  cbn [reduce1]. by apply ieee_foldl_better_first_maximum.
Qed.

Lemma best_by_score_is_first_maximum_witness :
  let r :=
    calculateProductPerformance
      [sale "a" 50 1; sale "b" 90 2; expense "b" 40; sale "c" 90 1]
      [stock "a" 1 1; stock "b" 0 2; stock "c" 3 1] None in
  ∃ b, Summary.bestByScore (Report.summary r) = Some b
       ∧ ProductPerformance.productId b = "b"
       ∧ firstMaximum ProductPerformance.performanceScore
                      (Report.products r) b.
Proof.
  intros r.
  pose proof (best_by_score_is_first_maximum
                [sale "a" 50 1; sale "b" 90 2; expense "b" 40; sale "c" 90 1]
                [stock "a" 1 1; stock "b" 0 2; stock "c" 3 1] None) as H.
  cbv zeta in H. fold r in H.
  specialize (H ltac:(by repeat constructor)).
  destruct (Summary.bestByScore (Report.summary r)) as [b|] eqn:E;
    [|discriminate H].
  exists b. split; [done|]. split; [|done].
  assert (ProductPerformance.productId
            <$> Summary.bestByScore (Report.summary r) = Some "b") as Hid
    by reflexivity.
  rewrite E in Hid. by injection Hid.
Defined.
End ieee_best.
